(** * OpenCSP geometry: [Vxy] point containers and [LineXY] homogeneous lines

    A shallow embedding of [opencsp/common/lib/geometry/Vxy.py] and
    [opencsp/common/lib/geometry/LineXY.py], and of the origin that
    [opencsp/app/sofast/lib/MeasurementSofastFixed.py] saves and loads.

    - numpy [float64] values are Rocq's primitive binary64 floats; the
      arithmetic of the two classes is written once over a small [Scalar]
      interface, instantiated at [float] (what the code runs on) and at the
      real numbers [R] (exact arithmetic, used to state the normalisation
      invariant that holds only up to rounding in binary64).
    - Python exceptions are the [Raise] results of the [res] error monad;
      the one unbounded loop of the code (the re-sampling [while] of
      [LineXY.fit_from_points]) takes fuel and answers [OutOfFuel] when it
      is exhausted.
    - numpy's [RandomState], scipy's [minimize] and libm's [sin], [cos],
      [arctan2] are not part of the repository: they are parameters. *)

From Stdlib Require Import ZArith List Lia Reals Lra Floats.
From stdpp Require Import gmap list.

Set Warnings "-inexact-float".

(** ** Exceptions and results *)

Inductive value_error :=
| NdimNot1Or2          (* 'Input data must have 1 or 2 dimensions if ndarray.' *)
| FirstDimNot2         (* 'First dimension of 2-dimensional data must be length 2 if ndarray.' *)
| LengthNot2           (* 'Input data must have length 2.' *)
| CannotReshape        (* numpy: cannot reshape array into shape (2,-1) *)
| Inhomogeneous        (* numpy: rows of different lengths *)
| CannotBroadcast      (* numpy: operands could not be broadcast together *)
| ZeroVector           (* 'Vector contains zero vector, cannot normalize.' *)
| VectorsNotLength1    (* 'Input vectors must be length 1.' *)
| TooFewPoints (n : nat) (* 'To fit line from points, must have > 15 points, but n were given.' *)
| NegativeSeed.        (* numpy SeedSequence: expected non-negative integer *)

Inductive exn :=
| ValueError (why : value_error)
| IndexError
| UnboundLocalError.

Inductive res (T : Type) :=
| Ret (v : T)
| Raise (e : exn)
| OutOfFuel.
Arguments Ret {T} v.
Arguments Raise {T} e.
Arguments OutOfFuel {T}.

Definition bind {T U} (m : res T) (k : T -> res U) : res U :=
  match m with
  | Ret v => k v
  | Raise e => Raise e
  | OutOfFuel => OutOfFuel
  end.

Notation "'let*' x ':=' m 'in' k" := (bind m (fun x => k))
  (at level 10, x pattern, m at level 100, k at level 200).

Definition raises {T} (m : res T) : bool :=
  match m with Raise _ => true | _ => false end.

(** ** The scalar interface *)

Class Scalar (F : Type) := {
  s_add : F -> F -> F;
  s_sub : F -> F -> F;
  s_mul : F -> F -> F;
  s_div : F -> F -> F;
  s_opp : F -> F;
  s_abs : F -> F;
  s_sqrt : F -> F;
  s_of_Z : Z -> F
}.

Declare Scope scalar_scope.
Delimit Scope scalar_scope with S.
Infix "+" := s_add : scalar_scope.
Infix "-" := s_sub : scalar_scope.
Infix "*" := s_mul : scalar_scope.
Infix "/" := s_div : scalar_scope.
Notation "- x" := (s_opp x) : scalar_scope.

(** Conversion of a Python [int] to [float64]: round to nearest, ties to
    even. *)
Definition int_to_float (z : Z) : float :=
  SF2Prim (binary_normalize prec emax z 0 false).

#[export] Instance float_scalar : Scalar float := {
  s_add := PrimFloat.add;
  s_sub := PrimFloat.sub;
  s_mul := PrimFloat.mul;
  s_div := PrimFloat.div;
  s_opp := PrimFloat.opp;
  s_abs := PrimFloat.abs;
  s_sqrt := PrimFloat.sqrt;
  s_of_Z := int_to_float
}.

#[export] Instance real_scalar : Scalar R := {
  s_add := Rplus;
  s_sub := Rminus;
  s_mul := Rmult;
  s_div := Rdiv;
  s_opp := Ropp;
  s_abs := Rabs;
  s_sqrt := R_sqrt.sqrt;
  s_of_Z := IZR
}.

(** ** Vxy and LineXY over a scalar type *)

Section Geometry.
Context {F : Type} {SF : Scalar F}.
Local Open Scope scalar_scope.

(** [Vxy._data] is a 2xN array: here the list of its N columns. *)
Record Vxy := mkVxy { data : list (F * F) }.

Definition len (v : Vxy) : nat := length (data v).
Definition x (v : Vxy) : list F := map fst (data v).
Definition y (v : Vxy) : list F := map snd (data v).

(** What [Vxy.__init__] accepts: an ndarray (shape and row-major
    elements), a list of rows, or a list of two numbers. *)
Inductive array_like :=
| NdArray (shape : list nat) (flat : list F)
| PyRows (rows : list (list F))
| PyPair (a b : F).

Definition squeeze (shape : list nat) : list nat :=
  List.filter (fun d => negb (d =? 1)%nat) shape.

(** [np.array(data, dtype).reshape((2, -1))] on the elements in row-major
    order. *)
Definition reshape_2_rows (flat : list F) : res Vxy :=
  let size := length flat in
  if (size mod 2 =? 0)%nat
  then let n := (size / 2)%nat in
       Ret (mkVxy (combine (firstn n flat) (skipn n flat)))
  else Raise (ValueError CannotReshape).

Definition Vxy_init (d : array_like) : res Vxy :=
  match d with
  | NdArray shape flat =>
      let sq := squeeze shape in
      let ndim := length sq in
      if negb ((ndim =? 1)%nat || (ndim =? 2)%nat)
      then Raise (ValueError NdimNot1Or2)
      else if (ndim =? 2)%nat && negb (hd 0%nat sq =? 2)%nat
      then Raise (ValueError FirstDimNot2)
      else reshape_2_rows flat
  | PyRows rows =>
      if negb (length rows =? 2)%nat
      then Raise (ValueError LengthNot2)
      else match rows with
           | [r0; r1] =>
               if (length r0 =? length r1)%nat
               then reshape_2_rows (r0 ++ r1)
               else Raise (ValueError Inhomogeneous)
           | _ => Raise (ValueError LengthNot2)
           end
  | PyPair a b => reshape_2_rows [a; b]
  end.

(** The ndarray behind a [Vxy]: shape (2, N), rows x then y. *)
Definition to_ndarray (cols : list (F * F)) : array_like :=
  NdArray [2%nat; length cols] (map fst cols ++ map snd cols).

Definition _from_data (cols : list (F * F)) : res Vxy :=
  Vxy_init (to_ndarray cols).

(** numpy broadcasting of two 2xN operands along the column axis. *)
Definition broadcast {T} (f : F * F -> F * F -> T)
    (a b : list (F * F)) : res (list T) :=
  if (length a =? length b)%nat then Ret (zip_with f a b)
  else match a, b with
       | [p], _ => Ret (map (f p) b)
       | _, [q] => Ret (map (fun p => f p q) a)
       | _, _ => Raise (ValueError CannotBroadcast)
       end.

Definition Vxy_sub (self v_in : Vxy) : res Vxy :=
  let* d := broadcast (fun p q => (fst p - fst q, snd p - snd q))
                      (data self) (data v_in) in
  _from_data d.

(** Indexing with a (possibly negative) integer, as numpy does. *)
Definition column (cols : list (F * F)) (i : Z) : res (F * F) :=
  let n := Z.of_nat (length cols) in
  let j := if (i <? 0)%Z then (i + n)%Z else i in
  if ((0 <=? j)%Z && (j <? n)%Z)%bool
  then match cols !! Z.to_nat j with
       | Some p => Ret p
       | None => Raise IndexError
       end
  else Raise IndexError.

Fixpoint select {T} (mask : list bool) (l : list T) : list T :=
  match mask, l with
  | b :: mask', a :: l' => if b then a :: select mask' l' else select mask' l'
  | _, _ => []
  end.

Inductive key :=
| KInt (i : Z)
| KMask (mask : list bool).

Definition Vxy_getitem (self : Vxy) (k : key) : res Vxy :=
  match k with
  | KInt i =>
      let* p := column (data self) i in
      Vxy_init (NdArray [2%nat] [fst p; snd p])
  | KMask mask =>
      if (length mask =? len self)%nat
      then _from_data (select mask (data self))
      else Raise IndexError
  end.

Definition magnitude (self : Vxy) : list F :=
  map (fun p => s_sqrt (fst p * fst p + snd p * snd p)) (data self).

Definition dot (self V : Vxy) : res (list F) :=
  broadcast (fun p q => fst p * fst q + snd p * snd q) (data self) (data V).

Definition concatenate (self V : Vxy) : res Vxy :=
  let xs := x self ++ x V in
  let ys := y self ++ y V in
  Vxy_init (NdArray [2%nat; length xs] (xs ++ ys)).

(** [np.concatenate([v.data for v in v_list], 1)]. *)
Definition concatenate_axis1 (l : list Vxy) : array_like :=
  let xs := concat (map x l) in
  let ys := concat (map y l) in
  NdArray [2%nat; length xs] (xs ++ ys).

Definition merge (v_list : list Vxy) : res Vxy :=
  if (length v_list =? 0)%nat
  then Vxy_init (PyRows [[]; []])
  else Vxy_init (concatenate_axis1 v_list).

(** *** LineXY *)

Record LineXY := mkLineXY { A : F; B : F; C : F }.

(** [np.linalg.norm] of the 2-vector (a, b). *)
Definition norm2 (a b : F) : F := s_sqrt (a * a + b * b).

(** [LineXY.__init__]. *)
Definition LineXY_init (a b c : F) : LineXY :=
  let mag := norm2 a b in
  {| A := a / mag; B := b / mag; C := c / mag |}.

Definition n_vec (self : LineXY) : res Vxy :=
  Vxy_init (PyPair (A self) (B self)).

Definition ABC (self : LineXY) : F * F * F := (A self, B self, C self).

(** [np.matmul(R, d)] for a 2x2 integer matrix and a 2xN array. *)
Definition matmul2 (r : (Z * Z) * (Z * Z)) (cols : list (F * F))
    : list (F * F) :=
  let '((r00, r01), (r10, r11)) := r in
  map (fun p => (s_of_Z r00 * fst p + s_of_Z r01 * snd p,
                 s_of_Z r10 * fst p + s_of_Z r11 * snd p)) cols.

Definition R_cw90 : (Z * Z) * (Z * Z) := ((0, 1), (-1, 0))%Z.

Definition from_two_points (Pxy1 Pxy2 : Vxy) : res LineXY :=
  if negb (len Pxy1 =? 1)%nat || negb (len Pxy2 =? 1)%nat
  then Raise (ValueError VectorsNotLength1)
  else
    let* delta := Vxy_sub Pxy2 Pxy1 in
    match matmul2 R_cw90 (data delta), data Pxy1 with
    | [(ab0, ab1)], [(x1, y1)] =>
        let c := - (x1 * ab0 + y1 * ab1) in
        Ret (LineXY_init ab0 ab1 c)
    | _, _ => Raise (ValueError VectorsNotLength1) (* both have one column *)
    end.

Definition dist_from_signed (self : LineXY) (Pxy : Vxy) : res (list F) :=
  let* nv := n_vec self in
  let* d := dot Pxy nv in
  Ret (map (fun v => v + C self) d).

Definition dist_from (self : LineXY) (Pxy : Vxy) : res (list F) :=
  let* d := dist_from_signed self Pxy in
  Ret (map s_abs d).



End Geometry.

Arguments Vxy F : clear implicits.
Arguments LineXY F : clear implicits.
Arguments array_like F : clear implicits.

(** ** The rest of the two classes

    The remaining operators of [Vxy], the coordinate functions of
    [LineXY], and the rotations.  [rotate_in_place] binds [_data] to a new
    array while [rotate_about_in_place] also writes into the array it
    holds, so these live in a heap with two levels: objects (a [Vxy] is
    the location of the array its [_data] names) and array buffers. *)

Section MoreGeometry.
Context {F : Type} {SF : Scalar F}.
Local Open Scope scalar_scope.

(** [Vxy.__add__]. *)
Definition Vxy_add (self v_in : Vxy F) : res (Vxy F) :=
  let* d := broadcast (fun p q => (fst p + fst q, snd p + snd q))
                      (data self) (data v_in) in
  _from_data d.

(** The operand of [Vxy.__mul__]: a number (an [int] operand is converted
    to float64 by numpy) or a [Vxy]; the third branch, an arbitrary
    ndarray, is left out. *)
Inductive operand :=
| Number (c : F)
| Vector (v : Vxy F).

Definition Vxy_mul (self : Vxy F) (data_in : operand) : res (Vxy F) :=
  match data_in with
  | Number c =>
      _from_data (map (fun p => (fst p * c, snd p * c)) (data self))
  | Vector v =>
      let* d := broadcast (fun p q => (fst p * fst q, snd p * snd q))
                          (data self) (data v) in
      _from_data d
  end.



(** [LineXY.y_from_x] and [LineXY.x_from_y] on an array of abscissas or
    ordinates. *)
Definition y_from_x (self : LineXY F) (xs : list F) : list F :=
  map (fun x => (- A self * x - C self) / B self) xs.

Definition x_from_y (self : LineXY F) (ys : list F) : list F :=
  map (fun y => (- B self * y - C self) / A self) ys.

(** The point [v[:2] / v[2]] that [intersect_with] computes from
    [v = np.cross(self.ABC, Lxy.ABC)]. *)
Definition cross_ABC (a b : F * F * F) : F * F * F :=
  let '(a0, a1, a2) := a in
  let '(b0, b1, b2) := b in
  (a1 * b2 - a2 * b1, a2 * b0 - a0 * b2, a0 * b1 - a1 * b0).

Definition intersection (self Lxy : LineXY F) : F * F :=
  let '(v0, v1, v2) := cross_ABC (ABC self) (ABC Lxy) in
  (v0 / v2, v1 / v2).

(** [MeasurementSofastFixed.save_to_hdf] stores [origin.data.squeeze()]
    and [load_from_hdf] hands the stored array to [Vxy]. *)
Definition nd_squeeze (a : array_like F) : array_like F :=
  match a with
  | NdArray shape flat => NdArray (squeeze shape) flat
  | other => other
  end.

Definition saved_origin (origin : Vxy F) : array_like F :=
  nd_squeeze (to_ndarray (data origin)).

Definition loaded_origin (dataset : array_like F) : res (Vxy F) :=
  Vxy_init dataset.

(** *** Rotations *)

(** [R @ d] for a 2x2 array and a 2xN array. *)
Definition matmul (r : (F * F) * (F * F)) (cols : list (F * F))
    : list (F * F) :=
  let '((r00, r01), (r10, r11)) := r in
  map (fun p => (r00 * fst p + r01 * snd p,
                 r10 * fst p + r11 * snd p)) cols.

(** An ndarray argument: its shape and its elements in row-major order. *)
Record ndarray := mkNd { nd_shape : list nat; nd_flat : list F }.

Record heap := mkHeap {
  arrays : gmap nat (list (F * F));
  objects : gmap nat nat
}.

(** The array [self._data] names. *)
Definition data_of (self : nat) (h : heap) : option (list (F * F)) :=
  match objects h !! self with
  | Some l => arrays h !! l
  | None => None
  end.

Inductive failure :=
| Exn (e : exn)
| RotationNotShape22.  (* ValueError 'Rotation matrix must be shape (2, 2), not ...' *)

Inductive outcome (T : Type) :=
| Done (v : T)
| Failed (e : failure).

(** [a -= b] and [a += b] on 2xN arrays: the right operand is broadcast to
    the shape of the left one, which is written in place. *)
Definition in_place (f : F -> F -> F) (a b : list (F * F))
    : option (list (F * F)) :=
  if (length b =? length a)%nat
  then Some (zip_with (fun p q => (f (fst p) (fst q), f (snd p) (snd q))) a b)
  else match b with
       | [q] => Some (map (fun p => (f (fst p) (fst q), f (snd p) (snd q))) a)
       | _ => None
       end.

(** [Vxy._from_data(self._data.copy())]: a new object on a new array. *)
Definition new_Vxy (cols : list (F * F)) (h : heap) : nat * heap :=
  let l := fresh (dom (arrays h)) in
  let o := fresh (dom (objects h)) in
  (o, mkHeap (<[l := cols]> (arrays h)) (<[o := l]> (objects h))).

(** [Vxy.rotate_in_place]: [self._data = R @ self._data] binds [_data] to
    the product, a new array; the old array is not written.  The rotation
    is an ndarray (the TypeError of the first check is excluded by the
    type of [R]), and an array of shape (2, 2) has four elements: anything
    else is no ndarray. *)
Definition rotate_in_place (self : nat) (R : ndarray) (h : heap)
    : option (outcome unit * heap) :=
  match objects h !! self, data_of self h with
  | Some l, Some d =>
      if bool_decide (nd_shape R = [2%nat; 2%nat])
      then match nd_flat R with
           | [r00; r01; r10; r11] =>
               let l' := fresh (dom (arrays h)) in
               Some (Done unit tt,
                     mkHeap (<[l' := matmul ((r00, r01), (r10, r11)) d]>
                               (arrays h))
                            (<[self := l']> (objects h)))
           | _ => None
           end
      else Some (Failed unit RotationNotShape22, h)
  | _, _ => None
  end.

(** [Vxy.rotate_about_in_place]. *)
Definition rotate_about_in_place (self : nat) (R : ndarray) (V_pivot : nat)
    (h : heap) : option (outcome unit * heap) :=
  match objects h !! self, data_of self h, data_of V_pivot h with
  | Some l, Some a, Some b =>
      (* self._data -= V_pivot.data *)
      match in_place s_sub a b with
      | None => Some (Failed unit (Exn (ValueError CannotBroadcast)), h)
      | Some a' =>
          let h1 := mkHeap (<[l := a']> (arrays h)) (objects h) in
          (* self.rotate_in_place(R) *)
          match rotate_in_place self R h1 with
          | Some (Done _ _, h2) =>
              (* self._data += V_pivot.data *)
              match objects h2 !! self, data_of self h2, data_of V_pivot h2 with
              | Some l2, Some c, Some b2 =>
                  match in_place s_add c b2 with
                  | None =>
                      Some (Failed unit (Exn (ValueError CannotBroadcast)), h2)
                  | Some c' =>
                      Some (Done unit tt,
                            mkHeap (<[l2 := c']> (arrays h2)) (objects h2))
                  end
              | _, _, _ => None
              end
          | other => other
          end
      end
  | _, _, _ => None
  end.

(** [Vxy.rotate] and [Vxy.rotate_about]: the in-place operation on a
    copy. *)
Definition on_copy (self : nat)
    (op : nat -> heap -> option (outcome unit * heap)) (h : heap)
    : option (outcome nat * heap) :=
  match data_of self h with
  | None => None
  | Some d =>
      match _from_data d with
      | Ret v =>
          let '(V_out, h1) := new_Vxy (data v) h in
          match op V_out h1 with
          | Some (Done _ _, h2) => Some (Done nat V_out, h2)
          | Some (Failed _ e, h2) => Some (Failed nat e, h2)
          | None => None
          end
      | Raise e => Some (Failed nat (Exn e), h)
      | OutOfFuel => None
      end
  end.

Definition rotate (self : nat) (R : ndarray) (h : heap)
    : option (outcome nat * heap) :=
  on_copy self (fun V_out => rotate_in_place V_out R) h.

Definition rotate_about (self : nat) (R : ndarray) (V_pivot : nat) (h : heap)
    : option (outcome nat * heap) :=
  on_copy self (fun V_out => rotate_about_in_place V_out R V_pivot) h.

End MoreGeometry.

Arguments operand F : clear implicits.
Arguments ndarray F : clear implicits.
Arguments heap F : clear implicits.
Arguments outcome T : clear implicits.
Arguments Done {T} v.
Arguments Failed {T} e.

(** ** The float64 side: comparisons, conversions, tolerances *)

Local Open Scope float_scope.

(** [np.floor(v).astype(int)]; a value outside int64 (or non-finite)
    converts to the least int64, as on x86-64. *)
Definition floor_to_int (v : float) : Z :=
  match Prim2SF v with
  | S754_zero _ => 0%Z
  | S754_finite s m e =>
      let z := Z.shiftl (cond_Zopp s (Zpos m)) e in
      if ((- 2 ^ 63 <=? z)%Z && (z <? 2 ^ 63)%Z)%bool then z else (- 2 ^ 63)%Z
  | _ => (- 2 ^ 63)%Z
  end.

(** Python's [int(v)] for a finite [v]: truncation towards zero. *)
Definition py_int (v : float) : Z :=
  match Prim2SF v with
  | S754_finite s m e => cond_Zopp s (Z.shiftl (Zpos m) e)
  | _ => 0%Z
  end.

Definition tol : float := 1e-10.

(** [LineXY.slope]. *)
Definition slope (self : LineXY float) : float :=
  if abs (B self) <? tol then infinity else (- A self) / B self.

(** [np.cross] of two 3-vectors. *)
Definition cross3 (a b : float * float * float) : float * float * float :=
  let '(a0, a1, a2) := a in
  let '(b0, b1, b2) := b in
  (a1 * b2 - a2 * b1, a2 * b0 - a0 * b2, a0 * b1 - a1 * b0).

Definition parallel (self Lxy : LineXY float) : bool :=
  ((abs (A self) <? tol) && (abs (A Lxy) <? tol))
  || ((abs (B self) <? tol) && (abs (B Lxy) <? tol))
  || (abs (slope self - slope Lxy) <? tol).

(** [LineXY.intersect_with]: [None] is Python's [None]. *)
Definition intersect_with (self Lxy : LineXY float) : res (option (Vxy float)) :=
  if parallel self Lxy then Ret None
  else
    let '(v0, v1, v2) := cross3 (ABC self) (ABC Lxy) in
    let* p := Vxy_init (NdArray [2%nat] [v0 / v2; v1 / v2]) in
    Ret (Some p).

(** [Vxy._magnitude_with_zero_check]. *)
Definition _magnitude_with_zero_check (self : Vxy float) : res (list float) :=
  let mag := magnitude self in
  if existsb (fun m => m =? 0) mag
  then Raise (ValueError ZeroVector)
  else Ret mag.

(** ** In-place normalisation: arrays in a store

    [normalize_in_place] overwrites the array its object holds, and
    [normalize] works on a copy.  Array buffers live in a store indexed by
    location; a [Vxy] object is the location of its [_data].  A location
    absent from the store answers [None] (no such object). *)

Abbreviation loc := nat (only parsing).
Abbreviation store := (gmap nat (list (float * float))) (only parsing).

Definition alloc (cols : list (float * float)) (h : store) : loc * store :=
  let l := fresh (dom h) in (l, <[l := cols]> h).

(** [self._data /= mag]: every column divided by its magnitude. *)
Definition divide_columns (cols : list (float * float)) (mag : list float)
    : list (float * float) :=
  zip_with (fun p m => (fst p / m, snd p / m)) cols mag.

Definition normalize_in_place (self : loc) (h : store)
    : option (res unit * store) :=
  match h !! self with
  | None => None
  | Some cols =>
      Some match _magnitude_with_zero_check (mkVxy cols) with
           | Ret mag => (Ret tt, <[self := divide_columns cols mag]> h)
           | Raise e => (Raise e, h)
           | OutOfFuel => (OutOfFuel, h)
           end
  end.

Definition normalize (self : loc) (h : store) : option (res loc * store) :=
  match h !! self with
  | None => None
  | Some cols =>
      (* self._data.copy() *)
      let '(c, h1) := alloc cols h in
      (* _from_data: np.array(...) copies once more, then reshapes *)
      match _from_data cols with
      | Ret v =>
          let '(V_out, h2) := alloc (data v) h1 in
          match normalize_in_place V_out h2 with
          | Some (Ret _, h3) => Some (Ret V_out, h3)
          | Some (Raise e, h3) => Some (Raise e, h3)
          | Some (OutOfFuel, h3) => Some (OutOfFuel, h3)
          | None => None
          end
      | Raise e => Some (Raise e, h1)
      | OutOfFuel => Some (OutOfFuel, h1)
      end
  end.

(** ** LineXY.fit_from_points *)

(** What the RANSAC loop remembers of one trial (for the specification). *)
Record trial := mkTrial {
  t_i1 : Z;
  t_i2 : Z;
  t_line : LineXY float;
  t_mask : list bool;
  t_n_active : Z
}.

(** The variables bound by the first improving trial. *)
Record kept := mkKept {
  active_mask : list bool;
  A_active : float;
  B_active : float;
  C_active : float
}.

(** [range(1000)]: the number of RANSAC trials. *)
Definition max_trials : nat := 1000.

Section Fit.
(** numpy's generator: [seed_state s] is the state of
    [RandomState(MT19937(SeedSequence(s)))] and [rand] is [rs.rand()]. *)
Variable rng : Type.
Variable seed_state : Z -> rng.
Variable rand : rng -> float * rng.
(** scipy's [minimize(fun, x0).x] for a two-parameter objective. *)
Variable minimize : (float * float -> float) -> float * float -> float * float.
(** libm. *)
Variables sin cos : float -> float.
Variable arctan2 : float -> float -> float.

Record loop_state := mkLoop {
  rs : rng;
  best_active : Z;
  best : option kept;
  history : list trial
}.

Definition RandomState (seed : Z) : res rng :=
  if (seed <? 0)%Z then Raise (ValueError NegativeSeed)
  else Ret (seed_state seed).

(** [np.floor(r * n).astype(int)]. *)
Definition index (r : float) (n : nat) : Z :=
  floor_to_int (r * int_to_float (Z.of_nat n)).

Definition same_point (p q : float * float) : bool :=
  (fst p =? fst q) && (snd p =? snd q).

(** The [while] loop that draws [i2] again as long as the two sampled
    columns compare equal. *)
Fixpoint resample (fuel : nat) (Pxy : Vxy float) (i1 i2 : Z) (g : rng)
    : res (Z * rng) :=
  let* p1 := column (data Pxy) i1 in
  let* p2 := column (data Pxy) i2 in
  if same_point p1 p2 then
    match fuel with
    | O => OutOfFuel
    | S fuel' =>
        let '(r, g') := rand g in
        resample fuel' Pxy i1 (index r (len Pxy)) g'
    end
  else Ret (i2, g).

Definition count_true (mask : list bool) : Z :=
  Z.of_nat (length (List.filter (fun b => b) mask)).

(** The body of the [for] loop up to the inlier count. *)
Definition one_trial (fuel : nat) (Pxy : Vxy float) (neighbor_dist : float)
    (g : rng) : res (trial * rng) :=
  let n := len Pxy in
  let '(r1, g1) := rand g in
  let i1 := index r1 n in
  let '(r2, g2) := rand g1 in
  let i2 := index r2 n in
  let* (i2, g3) := resample fuel Pxy i1 i2 g2 in
  let* p1 := Vxy_getitem Pxy (KInt i1) in
  let* p2 := Vxy_getitem Pxy (KInt i2) in
  let* Lxy := from_two_points p1 p2 in
  let* ds := dist_from Lxy Pxy in
  let mask_neighbor := map (fun d => d <? neighbor_dist) ds in
  let n_active := count_true mask_neighbor in
  Ret (mkTrial i1 i2 Lxy mask_neighbor n_active, g3).

(** "Keep line with most point matches". *)
Definition keep_best (st : loop_state) (t : trial) (g : rng) : loop_state :=
  if (best_active st <? t_n_active t)%Z
  then {| rs := g;
          best_active := t_n_active t;
          best := Some (mkKept (t_mask t) (A (t_line t)) (B (t_line t))
                               (C (t_line t)));
          history := history st ++ [t] |}
  else {| rs := g;
          best_active := best_active st;
          best := best st;
          history := history st ++ [t] |}.

(** [for idx in range(trials)], with the [break]. *)
Fixpoint ransac (trials fuel : nat) (Pxy : Vxy float) (neighbor_dist : float)
    (thresh : Z) (st : loop_state) : res loop_state :=
  match trials with
  | O => Ret st
  | S trials' =>
      let* (t, g) := one_trial fuel Pxy neighbor_dist (rs st) in
      let st' := keep_best st t g in
      if (thresh <? t_n_active t)%Z then Ret st'
      else ransac trials' fuel Pxy neighbor_dist thresh st'
  end.

(** [np.mean] of an array. *)
Definition mean (l : list float) : float :=
  fold_left PrimFloat.add l 0 / int_to_float (Z.of_nat (length l)).

(** The objective handed to [minimize]; [dist_from] cannot raise here
    (the normal vector has one column), the last branch is not reached. *)
Definition error_func (X : float * float) (Pxy : Vxy float) : float :=
  let '(theta, c) := X in
  let L := LineXY_init (sin theta) (cos theta) c in
  match dist_from L Pxy with
  | Ret dists => mean (map (fun d => d * d) dists)
  | _ => nan
  end.

Definition thresh_of (n : nat) : Z :=
  py_int (0.99 * int_to_float (Z.of_nat n)).

Definition fit_from_points (fuel : nat) (Pxy : Vxy float) (seed : Z)
    (neighbor_dist : float) : res (LineXY float) :=
  let* g := RandomState seed in
  let n := len Pxy in
  let thresh := thresh_of n in
  if (n <=? 15)%nat then Raise (ValueError (TooFewPoints n))
  else
    let* st := ransac max_trials fuel Pxy neighbor_dist thresh
                 (mkLoop g 0 None []) in
    match best st with
    | None => Raise UnboundLocalError
    | Some k =>
        let* Pxy_active := Vxy_getitem Pxy (KMask (active_mask k)) in
        let theta := arctan2 (A_active k) (B_active k) in
        let out := minimize (fun X => error_func X Pxy_active)
                            (theta, C_active k) in
        Ret (LineXY_init (sin (fst out)) (cos (fst out)) (snd out))
    end.

(** The state of the generator after [k] draws. *)
Fixpoint advance (k : nat) (g : rng) : rng :=
  match k with
  | O => g
  | S k' => advance k' (rand g).2
  end.

(** Every index of [0 .. n-1] is drawn again, from every state on. *)
Definition fair (n : nat) : Prop :=
  forall (g : rng) (j : nat), (j < n)%nat ->
    exists k, index (rand (advance k g)).1 n = Z.of_nat j.

(** Every drawn index is an index of the container. *)
Definition in_range (n : nat) : Prop :=
  forall g : rng, (0 <= index (rand g).1 n < Z.of_nat n)%Z.

End Fit.

(** * Specification vocabulary *)

(** What one trial does: two sampled columns that compare different, the
    line through them, and the points closer to it than the threshold. *)
Definition trial_ok (P : Vxy float) (nd : float) (t : trial) : Prop :=
  exists p1 p2 ds,
    column (data P) (t_i1 t) = Ret p1
    /\ column (data P) (t_i2 t) = Ret p2
    /\ ((fst p1 =? fst p2) && (snd p1 =? snd p2)) = false
    /\ from_two_points (mkVxy [p1]) (mkVxy [p2]) = Ret (t_line t)
    /\ dist_from (t_line t) P = Ret ds
    /\ t_mask t = map (fun d => d <? nd) ds
    /\ t_n_active t = Z.of_nat (length (List.filter (fun b => b) (t_mask t))).

Definition kept_of (t : trial) : kept :=
  mkKept (t_mask t) (A (t_line t)) (B (t_line t)) (C (t_line t)).

(** The retained candidate is the first trial with the largest inlier
    count; nothing is retained while no trial had an inlier. *)
Definition retains_best (h : list trial) (best_active : Z) (b : option kept)
    : Prop :=
  (forall t, t ∈ h -> (t_n_active t <= best_active)%Z)
  /\ ((best_active = 0%Z /\ b = None)
      \/ exists (i : nat) (t : trial),
           h !! i = Some t
           /\ t_n_active t = best_active
           /\ (0 < best_active)%Z
           /\ b = Some (kept_of t)
           /\ forall (j : nat) (t' : trial),
                (j < i)%nat -> h !! j = Some t' ->
                (t_n_active t' < t_n_active t)%Z).


Section ExactLines.
Local Open Scope R_scope.



End ExactLines.


(** The sign handed to the rounding of a binary64 result only labels
    it. *)
Definition with_sign (s : bool) (a : spec_float) : spec_float :=
  match a with
  | S754_zero _ => S754_zero s
  | S754_infinity _ => S754_infinity s
  | S754_nan => S754_nan
  | S754_finite _ m e => S754_finite s m e
  end.

(** A zero of either sign, and a point with finite coordinates. *)
Definition is_zero_value (v : float) : Prop := v = 0 \/ v = -0.

Definition finite_point (p : float * float) : bool :=
  is_finite (fst p) && is_finite (snd p).

(** ** Running the model

    Stand-ins for the external parts, to evaluate the model on examples: a
    counter generator whose k-th draw is (k mod 16)/16, a minimiser that
    returns its starting point, and low-order series for libm. *)

Definition counter_rand (c : nat) : float * nat :=
  (int_to_float (Z.of_nat (c mod 16)) / 16, S c).
Definition counter_seed (s : Z) : nat := Z.to_nat s.
Definition no_minimize (f : float * float -> float) (x0 : float * float)
    : float * float := x0.
Definition sin_series (t : float) : float := t - t * t * t / 6.
Definition cos_series (t : float) : float := 1 - t * t / 2.
Definition arctan2_ratio (a b : float) : float := a / b.

Definition fit_example :=
  fit_from_points nat counter_seed counter_rand no_minimize
    sin_series cos_series arctan2_ratio.

(** Sixteen points on the diagonal, and sixteen copies of one point. *)
Definition diagonal16 : Vxy float :=
  mkVxy (map (fun k => (int_to_float (Z.of_nat k), int_to_float (Z.of_nat k)))
             (seq 0 16)).
Definition same16 : Vxy float := mkVxy (map (fun _ => (1, 2)) (seq 0 16)).
Definition diagonal15 : Vxy float := mkVxy (firstn 15 (data diagonal16)).


(** Two containers on a heap: object 0 holds the points (1, 0) and (3, 4),
    object 1 the point (1, 1); a quarter turn, and an array that is no
    2x2 matrix. *)
Definition example_heap : heap float :=
  mkHeap (<[1%nat := [(1, 1)]]> {[ 0%nat := [(1, 0); (3, 4)] ]})%float
         (<[1%nat := 1%nat]> {[ 0%nat := 0%nat ]}).
Definition quarter_turn : ndarray float :=
  mkNd [2; 2]%nat [0; -1; 1; 0]%float.
Definition not_a_rotation : ndarray float := mkNd [3]%nat [1; 2; 3]%float.


(** * Properties *)

(** ** The constructor of [Vxy] *)

Section VxyFacts.
Context {F : Type} {SF : Scalar F}.

Lemma combine_fst_snd (cols : list (F * F)) :
  combine (map fst cols) (map snd cols) = cols.
Proof.
  induction cols as [|[a b] cols IH]; simpl; [reflexivity|].
  now rewrite IH.
Qed.

Lemma reshape_rows (xs ys : list F) :
  length xs = length ys ->
  reshape_2_rows (xs ++ ys) = Ret (mkVxy (combine xs ys)).
Proof.
  intros Hlen. unfold reshape_2_rows.
  rewrite length_app, <- Hlen.
  replace (length xs + length xs)%nat with (length xs * 2)%nat by lia.
  rewrite Nat.Div0.mod_mul, Nat.div_mul by lia. simpl.
  rewrite firstn_app, Nat.sub_diag, firstn_all, firstn_O, app_nil_r.
  rewrite skipn_app, Nat.sub_diag, skipn_all, skipn_O. reflexivity.
Qed.

(** A 2xN ndarray is accepted whatever N is: squeezing removes the
    column axis when N = 1 and leaves two axes otherwise. *)
Lemma Vxy_init_2xN (xs ys : list F) :
  length xs = length ys ->
  Vxy_init (NdArray [2%nat; length xs] (xs ++ ys))
  = Ret (mkVxy (combine xs ys)).
Proof.
  intros Hlen. unfold Vxy_init, squeeze. simpl.
  destruct (length xs =? 1)%nat eqn:E; simpl; now apply reshape_rows.
Qed.

Lemma from_data_ok (cols : list (F * F)) :
  _from_data cols = Ret (mkVxy cols).
Proof.
  unfold _from_data, to_ndarray.
  rewrite <- (length_map fst cols) at 1.
  rewrite Vxy_init_2xN by now rewrite !length_map.
  now rewrite combine_fst_snd.
Qed.

Lemma n_vec_ok (L : LineXY F) : n_vec L = Ret (mkVxy [(A L, B L)]).
Proof. reflexivity. Qed.

Lemma combine_app_same {T U} (a c : list T) (b d : list U) :
  length a = length b ->
  combine (a ++ c) (b ++ d) = combine a b ++ combine c d.
Proof.
  revert b. induction a as [|u a IH]; intros [|w b] Hlen;
    simpl in *; try discriminate; [reflexivity|].
  f_equal. apply IH. lia.
Qed.

Lemma combine_concat (l : list (Vxy F)) :
  combine (concat (map x l)) (concat (map y l)) = concat (map data l).
Proof.
  induction l as [|v l IH]; simpl; [reflexivity|].
  unfold x, y at 1.
  rewrite combine_app_same by now rewrite !length_map.
  now rewrite combine_fst_snd, <- IH.
Qed.

Lemma length_concat_xy (l : list (Vxy F)) :
  length (concat (map x l)) = length (concat (map y l)).
Proof.
  induction l as [|v l IH]; simpl; [reflexivity|].
  rewrite !length_app, IH. unfold x, y. now rewrite !length_map.
Qed.

Lemma merge_data (v_list : list (Vxy F)) :
  merge v_list = Ret (mkVxy (concat (map data v_list))).
Proof.
  destruct v_list as [|v l]; [reflexivity|].
  unfold merge, concatenate_axis1.
  change (length (v :: l) =? 0)%nat with false. cbv iota.
  rewrite Vxy_init_2xN by apply length_concat_xy.
  now rewrite combine_concat.
Qed.

(** Broadcasting a container against a single column. *)
Lemma broadcast_single {T} (f : F * F -> F * F -> T) (a : list (F * F)) q :
  broadcast f a [q] = Ret (map (fun p => f p q) a).
Proof.
  unfold broadcast.
  destruct a as [|p [|p' a]]; reflexivity.
Qed.

Lemma dist_from_signed_ok (L : LineXY F) (Pxy : Vxy F) :
  dist_from_signed L Pxy
  = Ret (map (fun p => s_add (s_add (s_mul (fst p) (A L))
                                    (s_mul (snd p) (B L))) (C L))
             (data Pxy)).
Proof.
  unfold dist_from_signed. rewrite n_vec_ok. simpl.
  unfold dot. simpl. rewrite broadcast_single. simpl.
  now rewrite map_map.
Qed.

Lemma dist_from_ok (L : LineXY F) (Pxy : Vxy F) :
  dist_from L Pxy
  = Ret (map (fun p => s_abs (s_add (s_add (s_mul (fst p) (A L))
                                           (s_mul (snd p) (B L))) (C L)))
             (data Pxy)).
Proof.
  unfold dist_from. rewrite dist_from_signed_ok. simpl.
  now rewrite map_map.
Qed.

End VxyFacts.

(** ** Merge, distances, intersection *)

(** C10: [Vxy.merge] of the empty list is the empty container (length 0,
    no error); for every list, empty or not, it returns a container whose
    columns are the inputs' columns in order, so its length is the sum of
    the input lengths. *)
Theorem merge_length :
  merge (F:=float) [] = Ret (mkVxy []) /\
  forall v_list : list (Vxy float),
    exists v, merge v_list = Ret v
              /\ data v = concat (map data v_list)
              /\ len v = sum_list (map len v_list).
Proof.
  split; [reflexivity|].
  intros v_list. exists (mkVxy (concat (map data v_list))).
  split; [apply merge_data|]. split; [reflexivity|].
  unfold len. simpl.
  induction v_list as [|v l IH]; simpl; [reflexivity|].
  now rewrite length_app, IH.
Qed.

(** C7: for every line and every container of points, the signed distance
    to the i-th point is [dot(point, (A, B)) + C], one value per point, and
    [dist_from] returns the absolute values of the signed distances. *)
Theorem dist_from_is_abs_of_signed (L : LineXY float) (Pxy : Vxy float) :
  exists ds,
    dist_from_signed L Pxy = Ret ds
    /\ length ds = len Pxy
    /\ (forall (i : nat) (p : float * float),
          data Pxy !! i = Some p ->
          ds !! i = Some ((fst p * A L + snd p * B L) + C L))
    /\ dist_from L Pxy = Ret (map abs ds).
Proof.
  eexists. split; [apply dist_from_signed_ok|].
  split; [now rewrite length_map|].
  split.
  - intros i p Hp. rewrite list_lookup_fmap, Hp. reflexivity.
  - unfold dist_from. rewrite dist_from_signed_ok. reflexivity.
Qed.


(** ** Normalisation and the store *)

Lemma zero_check_raises_iff (cols : list (float * float)) :
  _magnitude_with_zero_check (mkVxy cols) = Raise (ValueError ZeroVector)
  <-> exists (i : nat) (m : float),
        magnitude (mkVxy cols) !! i = Some m /\ (m =? 0) = true.
Proof.
  unfold _magnitude_with_zero_check.
  destruct (existsb _ _) eqn:E.
  - split; [intros _|reflexivity].
    apply existsb_exists in E as (m & Hin & Hm).
    apply list_elem_of_In, list_elem_of_lookup in Hin as [i Hi].
    now exists i, m.
  - split; [discriminate|].
    intros (i & m & Hi & Hm).
    assert (existsb (fun m => m =? 0) (magnitude (mkVxy cols)) = true) as E'.
    { apply existsb_exists. exists m. split; [|exact Hm].
      apply list_elem_of_In, list_elem_of_lookup. now exists i. }
    congruence.
Qed.

Lemma zero_check_cases (cols : list (float * float)) :
  _magnitude_with_zero_check (mkVxy cols) = Raise (ValueError ZeroVector)
  \/ _magnitude_with_zero_check (mkVxy cols) = Ret (magnitude (mkVxy cols)).
Proof.
  unfold _magnitude_with_zero_check.
  destruct (existsb _ _); [left|right]; reflexivity.
Qed.

(** C6: normalisation raises the zero-vector ValueError if and only if some
    column has magnitude zero; otherwise it succeeds.  [normalize] leaves
    every array that existed before the call as it was (whether it fails or
    not: it works on a copy), and a failed [normalize_in_place] leaves the
    whole store as it was. *)
Theorem normalize_raises_iff_zero_magnitude
    (h : store) (self : loc) (cols : list (float * float)) :
  h !! self = Some cols ->
  let zero_mag := exists (i : nat) (m : float),
      magnitude (mkVxy cols) !! i = Some m /\ (m =? 0) = true in
  (exists r h',
     normalize self h = Some (r, h')
     /\ (r = Raise (ValueError ZeroVector) <-> zero_mag)
     /\ (r = Raise (ValueError ZeroVector)
         \/ exists V_out, r = Ret V_out /\ h !! V_out = None
              /\ h' !! V_out
                 = Some (divide_columns cols (magnitude (mkVxy cols))))
     /\ h' !! self = Some cols
     /\ (forall l, is_Some (h !! l) -> h' !! l = h !! l))
  /\ (exists r h',
        normalize_in_place self h = Some (r, h')
        /\ (r = Raise (ValueError ZeroVector) <-> zero_mag)
        /\ (r = Raise (ValueError ZeroVector) /\ h' = h
            \/ r = Ret tt
               /\ h' = <[self := divide_columns cols
                                   (magnitude (mkVxy cols))]> h)).
Proof.
  intros Hself zero_mag. split.
  - unfold normalize. rewrite Hself, from_data_ok.
    unfold alloc. simpl.
    set (c := fresh (dom h)).
    set (h1 := <[c := cols]> h).
    set (o := fresh (dom h1)).
    assert (h !! c = None) as Hc by apply not_elem_of_dom, is_fresh.
    assert (h1 !! o = None) as Ho by apply not_elem_of_dom, is_fresh.
    assert (o <> c) as Hoc.
    { intros E. rewrite E in Ho. unfold h1 in Ho.
      now rewrite lookup_insert_eq in Ho. }
    assert (h !! o = None) as Ho'.
    { unfold h1 in Ho. now rewrite lookup_insert_ne in Ho. }
    assert (forall l, is_Some (h !! l) -> l <> c /\ l <> o) as Hold.
    { intros l [v Hl]. split; intros ->; congruence. }
    unfold normalize_in_place. rewrite lookup_insert_eq.
    pose proof (zero_check_raises_iff cols) as Hiff.
    destruct (zero_check_cases cols) as [E|E]; rewrite E in *.
    + eexists _, _. split; [reflexivity|].
      split; [split; [intros _; now apply Hiff|reflexivity]|].
      split; [now left|].
      assert (forall l, is_Some (h !! l) -> <[o := cols]> h1 !! l = h !! l) as K.
      { intros l Hl. destruct (Hold l Hl) as [? ?].
        unfold h1. now rewrite !lookup_insert_ne. }
      split; [|exact K]. rewrite K by (rewrite Hself; eauto). exact Hself.
    + eexists _, _. split; [reflexivity|].
      split; [split; [discriminate|]|].
      { intros Z. apply Hiff in Z. discriminate Z. }
      split.
      { right. exists o. repeat split; [exact Ho'|].
        now rewrite lookup_insert_eq. }
      assert (forall l, is_Some (h !! l) ->
                 <[o := divide_columns cols (magnitude (mkVxy cols))]>
                   (<[o := cols]> h1) !! l = h !! l) as K.
      { intros l Hl. destruct (Hold l Hl) as [? ?].
        unfold h1. now rewrite !lookup_insert_ne. }
      split; [|exact K]. rewrite K by (rewrite Hself; eauto). exact Hself.
  - unfold normalize_in_place. rewrite Hself.
    pose proof (zero_check_raises_iff cols) as Hiff.
    destruct (zero_check_cases cols) as [E|E]; rewrite E in *.
    + eexists _, _. split; [reflexivity|].
      split; [split; [intros _; now apply Hiff|reflexivity]|]. now left.
    + eexists _, _. split; [reflexivity|].
      split; [|now right].
      split; [discriminate|]. intros Z. apply Hiff in Z. discriminate Z.
Qed.

(** On the store holding [(3, 4); (0, 0)]: the call fails and the array is
    unchanged. *)
Lemma normalize_raises_iff_zero_magnitude_witness :
  ({[ 0%nat := [(3, 4); (0, 0)] ]} : store) !! 0%nat = Some [(3, 4); (0, 0)]
  /\ exists r h',
       normalize 0%nat {[ 0%nat := [(3, 4); (0, 0)] ]} = Some (r, h')
       /\ r = Raise (ValueError ZeroVector)
       /\ h' !! 0%nat = Some [(3, 4); (0, 0)].
Proof.
  assert (({[ 0%nat := [(3, 4); (0, 0)] ]} : store) !! 0%nat
          = Some [(3, 4); (0, 0)]) as H0 by reflexivity.
  split; [exact H0|].
  destruct (normalize_raises_iff_zero_magnitude _ _ _ H0)
    as [(r & h' & Hn & Hiff & _ & Hself & _) _].
  exists r, h'. split; [exact Hn|]. split; [|exact Hself].
  apply Hiff. exists 1%nat, 0. split; reflexivity.
Defined.


(** ** binary64 facts from the specification of the primitive floats *)

Lemma float_of_SF (v : float) (s : spec_float) :
  Prim2SF v = s -> v = SF2Prim s.
Proof. intros <-. symmetry. apply SF2Prim_Prim2SF. Qed.

Lemma sub_diag (v : float) : v - v = 0 \/ v - v = nan.
Proof.
  rewrite (float_of_SF (v - v) _ (sub_spec v v)).
  destruct (Prim2SF v) as [s|s| |s m e]; unfold SF64sub, SFsub.
  - left. destruct s; reflexivity.
  - right. destruct s; reflexivity.
  - right. reflexivity.
  - left. rewrite Z.min_id, Z.sub_diag. reflexivity.
Qed.

Lemma mul_zero_r (v : float) : v * 0 = 0 \/ v * 0 = -0 \/ v * 0 = nan.
Proof.
  rewrite (float_of_SF (v * 0) _ (mul_spec v 0)).
  destruct (Prim2SF v) as [s|s| |s m e]; try destruct s; vm_compute; tauto.
Qed.

Lemma mul_nan_r (v : float) : v * nan = nan.
Proof.
  rewrite (float_of_SF (v * nan) _ (mul_spec v nan)).
  destruct (Prim2SF v) as [s|s| |s m e]; reflexivity.
Qed.

(** ** Lines through two points *)

Lemma from_two_points_single (p q : float * float) :
  from_two_points (mkVxy [p]) (mkVxy [q])
  = let dx := fst q - fst p in
    let dy := snd q - snd p in
    let ab0 := 0 * dx + 1 * dy in
    let ab1 := (-1) * dx + 0 * dy in
    Ret (LineXY_init ab0 ab1 (- (fst p * ab0 + snd p * ab1))).
Proof.
  destruct p as [x1 y1], q as [x2 y2].
  reflexivity.
Qed.

Lemma nan_line_zero (x1 y1 : float) :
  LineXY_init (0 * 0 + 1 * 0) ((-1) * 0 + 0 * 0)
     (- (x1 * (0 * 0 + 1 * 0) + y1 * ((-1) * 0 + 0 * 0)))
  = mkLineXY nan nan nan.
Proof.
  change (0 * 0 + 1 * 0) with 0. change ((-1) * 0 + 0 * 0) with 0.
  unfold LineXY_init, norm2. simpl.
  destruct (mul_zero_r x1) as [-> | [-> | ->]], (mul_zero_r y1) as [-> | [-> | ->]];
    reflexivity.
Qed.

(** C2 (as the code behaves): [from_two_points] on two containers of length
    1 never raises; when the two points coincide the direction vector is
    zero (or NaN), its norm is not positive, and the returned line has the
    coefficients (NaN, NaN, NaN): numpy's float64 division by zero does not
    raise. *)
Theorem from_two_points_coincident :
  (forall p q : float * float,
     exists L, from_two_points (mkVxy [p]) (mkVxy [q]) = Ret L)
  /\ forall x y : float,
       from_two_points (mkVxy [(x, y)]) (mkVxy [(x, y)])
       = Ret (mkLineXY nan nan nan).
Proof.
  split.
  - intros p q. rewrite from_two_points_single. eauto.
  - intros x y. rewrite from_two_points_single. simpl. f_equal.
    destruct (sub_diag x) as [-> | ->], (sub_diag y) as [-> | ->].
    + apply nan_line_zero.
    + change (0 * 0 + 1 * nan) with nan. change ((-1) * 0 + 0 * nan) with nan.
      unfold LineXY_init, norm2. simpl. rewrite !mul_nan_r. reflexivity.
    + change (0 * nan + 1 * 0) with nan. change ((-1) * nan + 0 * 0) with nan.
      unfold LineXY_init, norm2. simpl. rewrite !mul_nan_r. reflexivity.
    + change (0 * nan + 1 * nan) with nan. change ((-1) * nan + 0 * nan) with nan.
      unfold LineXY_init, norm2. simpl. rewrite !mul_nan_r. reflexivity.
Qed.

(** C2, the claim as stated fails: two coincident points give a line and
    no exception. *)
Lemma from_two_points_coincident_no_error :
  from_two_points (mkVxy [(1, 1)]) (mkVxy [(1, 1)])
  = Ret (mkLineXY nan nan nan)
  /\ raises (from_two_points (mkVxy [(1, 1)]) (mkVxy [(1, 1)])) = false.
Proof. split; reflexivity. Qed.


(** ** The normalisation invariant

    In binary64 the stored normal has unit length only up to rounding (and
    is NaN for a zero normal); in exact arithmetic it has unit length. *)

Section Exact.
Local Open Scope R_scope.






End Exact.



(** ** Equality of binary64 values *)

Lemma SFeqb_true (a b : spec_float) :
  SFeqb a b = true ->
  a = b \/ exists s1 s2, a = S754_zero s1 /\ b = S754_zero s2.
Proof.
  unfold SFeqb, SFcompare.
  destruct a as [s1|s1| |s1 m1 e1], b as [s2|s2| |s2 m2 e2];
    try discriminate; try (destruct s1; discriminate);
    try (destruct s2; discriminate).
  - intros _. right. eauto.
  - destruct s1, s2; try discriminate; now left.
  - change (Pos.compare_cont Eq m1 m2) with (Pos.compare m1 m2).
    destruct s1, s2; try discriminate;
      destruct (Z.compare_spec e1 e2) as [->| |]; try discriminate;
      destruct (Pos.compare_spec m1 m2) as [->| |]; simpl;
      try discriminate; intros _; now left.
Qed.

Lemma SFeqb_zero_l (s1 s2 : bool) (c : spec_float) :
  SFeqb (S754_zero s1) c = SFeqb (S754_zero s2) c.
Proof. destruct c; reflexivity. Qed.

(** [==] on float64 is symmetric and transitive (not reflexive: NaN). *)
Lemma eqb_trans_l (u v w : float) :
  (u =? v) = true -> (u =? w) = (v =? w).
Proof.
  rewrite !FloatAxioms.eqb_spec. intros H.
  destruct (SFeqb_true _ _ H) as [->|(s1 & s2 & -> & ->)];
    [reflexivity|apply SFeqb_zero_l].
Qed.

(** ** The RANSAC loop *)

Lemma getitem_int (P : Vxy float) (i : Z) :
  Vxy_getitem P (KInt i) = let* p := column (data P) i in Ret (mkVxy [p]).
Proof.
  unfold Vxy_getitem. destruct (column (data P) i) as [[a b]| |]; reflexivity.
Qed.

Lemma column_raise {F} (cols : list (F * F)) (i : Z) (e : exn) :
  column cols i = Raise e -> e = IndexError.
Proof.
  unfold column.
  destruct (_ && _); [destruct (cols !! _)|]; congruence.
Qed.

Lemma column_no_fuel {F} (cols : list (F * F)) (i : Z) :
  column cols i <> OutOfFuel.
Proof.
  unfold column.
  destruct (_ && _); [destruct (cols !! _)|]; congruence.
Qed.

Section FitFacts.
Variable rng : Type.
Variable seed_state : Z -> rng.
Variable rand : rng -> float * rng.
Variable minimize : (float * float -> float) -> float * float -> float * float.
Variables sin cos : float -> float.
Variable arctan2 : float -> float -> float.

Local Abbreviation resample := (resample rng rand).
Local Abbreviation one_trial := (one_trial rng rand).
Local Abbreviation ransac := (ransac rng rand).
Local Abbreviation keep_best := (keep_best rng).
Local Abbreviation fit_from_points :=
  (fit_from_points rng seed_state rand minimize sin cos arctan2).

Lemma resample_ret fuel P i1 i2 g j g' :
  resample fuel P i1 i2 g = Ret (j, g') ->
  exists p1 p2, column (data P) i1 = Ret p1 /\ column (data P) j = Ret p2
                /\ same_point p1 p2 = false.
Proof.
  revert i2 g. induction fuel as [|fuel IH]; intros i2 g; simpl;
    destruct (column (data P) i1) as [p1| |] eqn:E1; simpl; try discriminate;
    destruct (column (data P) i2) as [p2| |] eqn:E2; simpl; try discriminate;
    destruct (same_point p1 p2) eqn:Es; try discriminate.
  - intros [= <- <-]. eauto.
  - destruct (rand g) as [r g1]. intros H.
    destruct (IH _ _ H) as (q1 & q2 & H1 & H2 & H3).
    exists q1, q2. auto.
  - intros [= <- <-]. eauto.
Qed.

Lemma resample_raise fuel P i1 i2 g e :
  resample fuel P i1 i2 g = Raise e -> e = IndexError.
Proof.
  revert i2 g. induction fuel as [|fuel IH]; intros i2 g; simpl;
    destruct (column (data P) i1) as [p1| |] eqn:E1; simpl;
    try discriminate; try (intros [= <-]; now apply column_raise in E1);
    destruct (column (data P) i2) as [p2| |] eqn:E2; simpl;
    try discriminate; try (intros [= <-]; now apply column_raise in E2);
    destruct (same_point p1 p2) eqn:Es; try discriminate.
  destruct (rand g) as [r g1]. apply IH.
Qed.

Lemma resample_mono fuel fuel' P i1 i2 g :
  (fuel <= fuel')%nat ->
  resample fuel P i1 i2 g <> OutOfFuel ->
  resample fuel' P i1 i2 g = resample fuel P i1 i2 g.
Proof.
  revert fuel' i2 g. induction fuel as [|fuel IH]; intros fuel' i2 g Hle.
  - destruct fuel'; [reflexivity|]. simpl.
    destruct (column (data P) i1) as [p1| |]; simpl; try reflexivity.
    destruct (column (data P) i2) as [p2| |]; simpl; try reflexivity.
    destruct (same_point p1 p2); [congruence|reflexivity].
  - destruct fuel' as [|fuel']; [lia|]. simpl.
    destruct (column (data P) i1) as [p1| |]; simpl; try reflexivity.
    destruct (column (data P) i2) as [p2| |]; simpl; try reflexivity.
    destruct (same_point p1 p2); [|reflexivity].
    destruct (rand g) as [r g1]. apply IH. lia.
Qed.

(** One trial, with the calls that cannot fail resolved. *)
Lemma one_trial_eq fuel P nd g :
  one_trial fuel P nd g =
  let i1 := index (rand g).1 (len P) in
  let i2 := index (rand (rand g).2).1 (len P) in
  let* (j, g3) := resample fuel P i1 i2 (rand (rand g).2).2 in
  let* p1 := column (data P) i1 in
  let* p2 := column (data P) j in
  let* Lxy := from_two_points (mkVxy [p1]) (mkVxy [p2]) in
  let* ds := dist_from Lxy P in
  let mask := map (fun d => d <? nd) ds in
  Ret (mkTrial i1 j Lxy mask (count_true mask), g3).
Proof.
  unfold one_trial.
  destruct (rand g) as [r1 g1]. cbn [fst snd].
  destruct (rand g1) as [r2 g2]. cbn [fst snd].
  rewrite !getitem_int.
  destruct (resample _ _ _ _ _) as [[j g3]| |]; [|reflexivity..].
  cbv beta iota delta [bind]. rewrite !getitem_int.
  cbv beta iota delta [bind].
  destruct (column (data P) (index r1 (len P))) as [p1| |];
    [|reflexivity..].
  destruct (column (data P) j) as [p2| |]; reflexivity.
Qed.

Lemma one_trial_ok fuel P nd g t g' :
  one_trial fuel P nd g = Ret (t, g') -> trial_ok P nd t.
Proof.
  rewrite one_trial_eq. cbv zeta.
  destruct (resample _ _ _ _ _) as [[j g3]| |] eqn:Er;
    cbv beta iota delta [bind]; try discriminate.
  destruct (resample_ret _ _ _ _ _ _ _ Er) as (p1 & p2 & H1 & H2 & Hs).
  rewrite H1, H2, from_two_points_single. cbv beta iota zeta.
  rewrite dist_from_ok. intros [= <- <-].
  exists p1, p2. eexists. cbn [t_i1 t_i2 t_line t_mask t_n_active].
  split; [exact H1|]. split; [exact H2|]. split; [exact Hs|].
  split; [apply from_two_points_single|].
  split; [apply dist_from_ok|]. split; reflexivity.
Qed.

Lemma one_trial_raise fuel P nd g e :
  one_trial fuel P nd g = Raise e -> e = IndexError.
Proof.
  rewrite one_trial_eq. cbv zeta.
  destruct (resample _ _ _ _ _) as [[j g3]| |] eqn:Er;
    cbv beta iota delta [bind]; try discriminate.
  - destruct (resample_ret _ _ _ _ _ _ _ Er) as (p1 & p2 & H1 & H2 & Hs).
    rewrite H1, H2, from_two_points_single. cbv beta iota zeta.
    rewrite dist_from_ok. discriminate.
  - intros [= <-]. eapply resample_raise, Er.
Qed.

Lemma one_trial_mono fuel fuel' P nd g :
  (fuel <= fuel')%nat ->
  one_trial fuel P nd g <> OutOfFuel ->
  one_trial fuel' P nd g = one_trial fuel P nd g.
Proof.
  intros Hle. rewrite !one_trial_eq. cbv zeta. intros H.
  rewrite (resample_mono fuel fuel'); [reflexivity|exact Hle|].
  intros E. apply H. now rewrite E.
Qed.

Lemma ransac_mono trials fuel fuel' P nd th st :
  (fuel <= fuel')%nat ->
  ransac trials fuel P nd th st <> OutOfFuel ->
  ransac trials fuel' P nd th st = ransac trials fuel P nd th st.
Proof.
  intros Hle. revert st. induction trials as [|k IH]; intros st; simpl;
    [reflexivity|].
  intros H.
  rewrite (one_trial_mono fuel fuel') by
    (try exact Hle; intros E; apply H; now rewrite E).
  destruct (one_trial fuel P nd (rs rng st)) as [[t g]| |];
    cbv beta iota delta [bind] in *; try reflexivity.
  destruct (th <? t_n_active t)%Z; [reflexivity|]. now apply IH.
Qed.

Lemma ransac_raise trials fuel P nd th st e :
  ransac trials fuel P nd th st = Raise e -> e = IndexError.
Proof.
  revert st. induction trials as [|k IH]; intros st; simpl; [discriminate|].
  destruct (one_trial fuel P nd (rs rng st)) as [[t g]| |] eqn:E;
    cbv beta iota delta [bind]; try discriminate.
  - destruct (th <? t_n_active t)%Z; [discriminate|]. apply IH.
  - intros [= <-]. eapply one_trial_raise, E.
Qed.


End FitFacts.


(** ** Termination of the fit *)

Lemma getitem_mask_raise (P : Vxy float) (mask : list bool) (e : exn) :
  Vxy_getitem P (KMask mask) = Raise e -> e = IndexError.
Proof.
  unfold Vxy_getitem. destruct (_ =? _)%nat.
  - rewrite from_data_ok. discriminate.
  - now intros [= <-].
Qed.

Lemma getitem_mask_no_fuel (P : Vxy float) (mask : list bool) :
  Vxy_getitem P (KMask mask) <> OutOfFuel.
Proof.
  unfold Vxy_getitem. destruct (_ =? _)%nat.
  - rewrite from_data_ok. discriminate.
  - discriminate.
Qed.

Lemma column_lookup {F} (cols : list (F * F)) (j : nat) (p : F * F) :
  cols !! j = Some p -> column cols (Z.of_nat j) = Ret p.
Proof.
  intros Hj. pose proof (lookup_lt_Some _ _ _ Hj) as Hlt.
  unfold column.
  destruct (Z.ltb_spec (Z.of_nat j) 0); [lia|].
  destruct (Z.leb_spec 0 (Z.of_nat j)); [|lia].
  destruct (Z.ltb_spec (Z.of_nat j) (Z.of_nat (length cols))); [|lia].
  cbn [andb]. now rewrite Nat2Z.id, Hj.
Qed.

Lemma column_in_range {F} (cols : list (F * F)) (i : Z) :
  (0 <= i < Z.of_nat (length cols))%Z ->
  exists p, column cols i = Ret p /\ cols !! Z.to_nat i = Some p.
Proof.
  intros Hi.
  destruct (lookup_lt_is_Some_2 cols (Z.to_nat i)) as [p Hp]; [lia|].
  exists p. split; [|exact Hp].
  rewrite <- (Z2Nat.id i) by lia. now apply column_lookup.
Qed.

Lemma same_point_trans_l (u v w : float * float) :
  same_point u v = true -> same_point u w = same_point v w.
Proof.
  unfold same_point. intros H. apply andb_prop in H as [H1 H2].
  now rewrite (eqb_trans_l _ _ (fst w) H1), (eqb_trans_l _ _ (snd w) H2).
Qed.

Section Termination.
Variable rng : Type.
Variable seed_state : Z -> rng.
Variable rand : rng -> float * rng.
Variable minimize : (float * float -> float) -> float * float -> float * float.
Variables sin cos : float -> float.
Variable arctan2 : float -> float -> float.

Local Abbreviation resample := (resample rng rand).
Local Abbreviation one_trial := (one_trial rng rand).
Local Abbreviation ransac := (ransac rng rand).
Local Abbreviation fit_from_points :=
  (fit_from_points rng seed_state rand minimize sin cos arctan2).
Local Abbreviation advance := (advance rng rand).
Local Abbreviation fair := (fair rng rand).
Local Abbreviation in_range := (in_range rng rand).

Lemma resample_S fuel P i1 i2 g :
  resample (S fuel) P i1 i2 g =
  let* p1 := column (data P) i1 in
  let* p2 := column (data P) i2 in
  if same_point p1 p2
  then resample fuel P i1 (index (rand g).1 (len P)) (rand g).2
  else Ret (i2, g).
Proof.
  cbn [resample]. destruct (rand g) as [r g']. reflexivity.
Qed.

Lemma resample_hits P i1 p1 (j : nat) q :
  column (data P) i1 = Ret p1 ->
  data P !! j = Some q ->
  same_point p1 q = false ->
  forall k i2 g,
    index (rand (advance k g)).1 (len P) = Z.of_nat j ->
    resample (S k) P i1 i2 g <> OutOfFuel.
Proof.
  intros H1 Hj Hs. induction k as [|k IH]; intros i2 g Hk;
    rewrite resample_S, H1; cbv beta iota delta [bind];
    destruct (column (data P) i2) as [p2| |] eqn:E2; try discriminate;
    try (now apply column_no_fuel in E2);
    destruct (same_point p1 p2); try discriminate.
  - cbn [advance] in Hk. rewrite Hk.
    cbn [resample]. rewrite H1, (column_lookup _ _ _ Hj).
    cbv beta iota delta [bind]. rewrite Hs. discriminate.
  - apply IH. exact Hk.
Qed.

Lemma resample_terminates P i1 i2 g :
  fair (len P) ->
  (exists p q, p ∈ data P /\ q ∈ data P /\ same_point p q = false) ->
  exists fuel, resample fuel P i1 i2 g <> OutOfFuel.
Proof.
  intros Hfair (p & q & Hp & Hq & Hpq).
  destruct (column (data P) i1) as [p1| |] eqn:E1.
  - assert (exists (j : nat) w, data P !! j = Some w
                                /\ same_point p1 w = false) as (j & w & Hj & Hw).
    { apply list_elem_of_lookup in Hp as [a Ha].
      apply list_elem_of_lookup in Hq as [b Hb].
      destruct (same_point p1 p) eqn:E; [|now exists a, p].
      exists b, q. split; [exact Hb|].
      now rewrite (same_point_trans_l _ _ q E). }
    destruct (Hfair g j (lookup_lt_Some _ _ _ Hj)) as [k Hk].
    exists (S k). now apply (resample_hits P i1 p1 j w).
  - exists O. cbn [resample]. rewrite E1. discriminate.
  - now apply column_no_fuel in E1.
Qed.

Lemma one_trial_fuel fuel P nd g :
  resample fuel P (index (rand g).1 (len P))
    (index (rand (rand g).2).1 (len P)) (rand (rand g).2).2 <> OutOfFuel ->
  one_trial fuel P nd g <> OutOfFuel.
Proof.
  rewrite one_trial_eq. cbv zeta.
  destruct (resample _ _ _ _ _) as [[j g3]| |] eqn:Er; [| |congruence];
    intros _; cbv beta iota delta [bind]; [|discriminate].
  destruct (resample_ret _ _ _ _ _ _ _ _ _ Er) as (p1 & p2 & H1 & H2 & Hs).
  rewrite H1, H2, from_two_points_single. cbv beta iota zeta.
  rewrite dist_from_ok. discriminate.
Qed.

Lemma one_trial_terminates P nd g :
  fair (len P) ->
  (exists p q, p ∈ data P /\ q ∈ data P /\ same_point p q = false) ->
  exists fuel, one_trial fuel P nd g <> OutOfFuel.
Proof.
  intros Hfair Hd.
  destruct (resample_terminates P (index (rand g).1 (len P))
              (index (rand (rand g).2).1 (len P)) (rand (rand g).2).2
              Hfair Hd) as [fuel Hf].
  exists fuel. now apply one_trial_fuel.
Qed.

Lemma ransac_S trials fuel P nd th st :
  ransac (S trials) fuel P nd th st =
  let* (t, g) := one_trial fuel P nd (rs rng st) in
  if (th <? t_n_active t)%Z then Ret (keep_best rng st t g)
  else ransac trials fuel P nd th (keep_best rng st t g).
Proof. reflexivity. Qed.

Lemma ransac_terminates P nd th :
  fair (len P) ->
  (exists p q, p ∈ data P /\ q ∈ data P /\ same_point p q = false) ->
  forall trials st, exists fuel, ransac trials fuel P nd th st <> OutOfFuel.
Proof.
  intros Hfair Hd. induction trials as [|k IH]; intros st.
  - exists O. discriminate.
  - destruct (one_trial_terminates P nd (rs rng st) Hfair Hd) as [f1 Hf1].
    destruct (one_trial f1 P nd (rs rng st)) as [[t g]| |] eqn:E1;
      [| |congruence].
    + destruct (IH (keep_best rng st t g)) as [f2 Hf2].
      exists (Nat.max f1 f2). rewrite ransac_S.
      rewrite (one_trial_mono rng rand f1 (Nat.max f1 f2)), E1
        by (try lia; congruence).
      cbv beta iota delta [bind].
      destruct (th <? t_n_active t)%Z; [discriminate|].
      rewrite (ransac_mono rng rand k f2 (Nat.max f1 f2)) by (try lia; exact Hf2).
      exact Hf2.
    + exists f1. rewrite ransac_S, E1. discriminate.
Qed.

Lemma resample_diverges P :
  in_range (len P) ->
  (forall p q, p ∈ data P -> q ∈ data P -> same_point p q = true) ->
  forall fuel i1 i2 g,
    (0 <= i1 < Z.of_nat (len P))%Z -> (0 <= i2 < Z.of_nat (len P))%Z ->
    resample fuel P i1 i2 g = OutOfFuel.
Proof.
  intros Hrange Hsame. induction fuel as [|fuel IH]; intros i1 i2 g H1 H2;
    destruct (column_in_range (data P) i1 H1) as (p1 & E1 & L1);
    destruct (column_in_range (data P) i2 H2) as (p2 & E2 & L2);
    assert (same_point p1 p2 = true) as Es
      by (apply Hsame; eapply list_elem_of_lookup_2; eassumption).
  - cbn [resample]. rewrite E1, E2. cbv beta iota delta [bind].
    now rewrite Es.
  - rewrite resample_S, E1, E2. cbv beta iota delta [bind]. rewrite Es.
    apply IH; [exact H1|apply Hrange].
Qed.

Lemma one_trial_diverges P nd :
  in_range (len P) ->
  (forall p q, p ∈ data P -> q ∈ data P -> same_point p q = true) ->
  forall fuel g, one_trial fuel P nd g = OutOfFuel.
Proof.
  intros Hrange Hsame fuel g. rewrite one_trial_eq. cbv zeta.
  rewrite (resample_diverges P Hrange Hsame) by apply Hrange. reflexivity.
Qed.

(** C9: with at least 16 points, a generator that keeps drawing every index
    (and only indices of the container), the fit terminates (enough fuel
    gives a result or an exception) whenever two of the points compare
    different; and when all points compare equal no amount of fuel
    suffices: the re-sampling loop never exits. *)
Theorem fit_terminates_iff_two_distinct_points
    (Pxy : Vxy float) (seed : Z) (neighbor_dist : float) :
  (16 <= len Pxy)%nat ->
  fair (len Pxy) ->
  in_range (len Pxy) ->
  ((exists p q, p ∈ data Pxy /\ q ∈ data Pxy /\ same_point p q = false) ->
   exists fuel, fit_from_points fuel Pxy seed neighbor_dist <> OutOfFuel)
  /\ ((forall p q, p ∈ data Pxy -> q ∈ data Pxy -> same_point p q = true) ->
      (0 <= seed)%Z ->
      forall fuel, fit_from_points fuel Pxy seed neighbor_dist = OutOfFuel).
Proof.
  intros Hn Hfair Hrange. split.
  - intros Hd. unfold fit_from_points.
    generalize max_trials. intros k.
    destruct (RandomState rng seed_state seed) as [g| |] eqn:Eg.
    + destruct (ransac_terminates Pxy neighbor_dist (thresh_of (len Pxy))
                  Hfair Hd k (mkLoop rng g 0 None [])) as [fuel Hf].
      exists fuel. cbv beta iota delta [bind].
      destruct (len Pxy <=? 15)%nat; [discriminate|].
      destruct (ransac k fuel Pxy _ _ _) as [st| |]; [|discriminate|congruence].
      destruct (best rng st) as [b|]; [|discriminate].
      destruct (Vxy_getitem Pxy (KMask (active_mask b))) as [Pa| |] eqn:Em;
        try discriminate.
      now apply getitem_mask_no_fuel in Em.
    + exists O. discriminate.
    + unfold RandomState in Eg. destruct (seed <? 0)%Z; discriminate.
  - intros Hsame Hseed fuel. unfold fit_from_points, RandomState.
    destruct (Z.ltb_spec seed 0); [lia|]. cbv beta iota delta [bind].
    destruct (Nat.leb_spec (len Pxy) 15); [lia|].
    assert (max_trials = S (Nat.pred max_trials)) as -> by reflexivity.
    rewrite ransac_S. cbn [rs].
    now rewrite (one_trial_diverges Pxy neighbor_dist Hrange Hsame).
Qed.

(** C1: with 15 points or fewer the fit fails with a ValueError (the
    too-few-points one whenever the seed is acceptable to numpy, i.e. not
    negative); with 16 points or more it never raises that error. *)
Theorem fit_requires_16_points
    (fuel : nat) (Pxy : Vxy float) (seed : Z) (neighbor_dist : float) :
  ((len Pxy <= 15)%nat ->
     (exists why, fit_from_points fuel Pxy seed neighbor_dist
                  = Raise (ValueError why))
     /\ ((0 <= seed)%Z ->
         fit_from_points fuel Pxy seed neighbor_dist
         = Raise (ValueError (TooFewPoints (len Pxy)))))
  /\ ((16 <= len Pxy)%nat ->
      forall n, fit_from_points fuel Pxy seed neighbor_dist
                <> Raise (ValueError (TooFewPoints n))).
Proof.
  unfold fit_from_points, RandomState.
  generalize max_trials. intros k. split.
  - intros Hn. destruct (Nat.leb_spec (len Pxy) 15); [|lia].
    destruct (Z.ltb_spec seed 0); cbv beta iota delta [bind].
    + split; [eauto|lia].
    + split; [eauto|reflexivity].
  - intros Hn n. destruct (Nat.leb_spec (len Pxy) 15); [lia|].
    destruct (seed <? 0)%Z; cbv beta iota delta [bind]; [discriminate|].
    destruct (ransac k fuel Pxy _ _ _) as [st|e|] eqn:Er; [| |discriminate].
    + destruct (best rng st) as [b|]; [|discriminate].
      destruct (Vxy_getitem Pxy (KMask (active_mask b))) as [Pa|e|] eqn:Em;
        try discriminate.
      apply getitem_mask_raise in Em. subst e. discriminate.
    + apply ransac_raise in Er. subst e. discriminate.
Qed.

End Termination.

Lemma counter_index (c : nat) :
  index (counter_rand c).1 16 = Z.of_nat (c mod 16).
Proof.
  unfold counter_rand. cbn [fst].
  pose proof (Nat.mod_upper_bound c 16 ltac:(lia)) as Hm.
  generalize dependent (c mod 16)%nat. intros m Hm.
  do 16 (destruct m as [|m]; [vm_compute; reflexivity|]). lia.
Qed.

Lemma counter_advance (k c : nat) : advance nat counter_rand k c = (k + c)%nat.
Proof.
  revert c. induction k as [|k IH]; intros c; [reflexivity|].
  cbn [advance]. rewrite IH. unfold counter_rand. cbn [snd]. lia.
Qed.

Lemma counter_fair : fair nat counter_rand 16.
Proof.
  intros c j Hj.
  pose proof (Nat.mod_upper_bound c 16 ltac:(lia)) as Hr.
  pose proof (Nat.div_mod_eq c 16) as Hc.
  exists (if (c mod 16 <=? j)%nat then (j - c mod 16)%nat
          else (j + 16 - c mod 16)%nat).
  rewrite counter_advance, counter_index. f_equal. symmetry.
  destruct (Nat.leb_spec (c mod 16) j).
  - apply (Nat.mod_unique _ 16 (c / 16) j); lia.
  - apply (Nat.mod_unique _ 16 (S (c / 16)) j); lia.
Qed.

Lemma counter_in_range : in_range nat counter_rand 16.
Proof.
  intros c. rewrite counter_index.
  pose proof (Nat.mod_upper_bound c 16 ltac:(lia)). lia.
Qed.

(** With the counter generator: the fit of sixteen points on the diagonal
    terminates, the fit of sixteen copies of one point never does. *)
Lemma fit_terminates_iff_two_distinct_points_witness :
  (16 <= len diagonal16)%nat
  /\ fair nat counter_rand (len diagonal16)
  /\ in_range nat counter_rand (len diagonal16)
  /\ (exists fuel, fit_example fuel diagonal16 1 1 <> OutOfFuel)
  /\ (16 <= len same16)%nat
  /\ forall fuel, fit_example fuel same16 1 1 = OutOfFuel.
Proof.
  assert (16 <= len diagonal16)%nat as Hn by (vm_compute; lia).
  assert (16 <= len same16)%nat as Hn' by (vm_compute; lia).
  split; [exact Hn|]. split; [exact counter_fair|].
  split; [exact counter_in_range|]. split.
  - apply (fit_terminates_iff_two_distinct_points nat counter_seed
             counter_rand no_minimize sin_series cos_series arctan2_ratio
             diagonal16 1 1 Hn counter_fair counter_in_range).
    exists (0, 0), (1, 1).
    split; [apply list_elem_of_here|].
    split; [apply list_elem_of_further, list_elem_of_here|reflexivity].
  - split; [exact Hn'|].
    apply (fit_terminates_iff_two_distinct_points nat counter_seed
             counter_rand no_minimize sin_series cos_series arctan2_ratio
             same16 1 1 Hn' counter_fair counter_in_range); [|lia].
    intros p q Hp Hq.
    apply list_elem_of_In, in_map_iff in Hp as (? & <- & _).
    apply list_elem_of_In, in_map_iff in Hq as (? & <- & _).
    reflexivity.
Defined.

(** Fifteen and sixteen points on the diagonal. *)
Lemma fit_requires_16_points_witness :
  (len diagonal15 <= 15)%nat
  /\ fit_example 0 diagonal15 1 1
     = Raise (ValueError (TooFewPoints (len diagonal15)))
  /\ (16 <= len diagonal16)%nat
  /\ fit_example 0 diagonal16 1 1 <> Raise (ValueError (TooFewPoints 16)).
Proof.
  assert (len diagonal15 <= 15)%nat as H15 by (vm_compute; lia).
  assert (16 <= len diagonal16)%nat as H16 by (vm_compute; lia).
  split; [exact H15|]. split.
  - apply (fit_requires_16_points nat counter_seed counter_rand no_minimize
             sin_series cos_series arctan2_ratio 0 diagonal15 1 1);
      [exact H15|lia].
  - split; [exact H16|].
    apply (fit_requires_16_points nat counter_seed counter_rand no_minimize
             sin_series cos_series arctan2_ratio 0 diagonal16 1 1).
    exact H16.
Defined.



(** ** The RANSAC stage *)




Section Stage.
Variable rng : Type.
Variable rand : rng -> float * rng.

Local Abbreviation one_trial := (one_trial rng rand).
Local Abbreviation ransac := (ransac rng rand).
Local Abbreviation keep_best := (keep_best rng).

Lemma keep_best_history st t g :
  history rng (keep_best st t g) = history rng st ++ [t].
Proof. unfold keep_best. now destruct (_ <? _)%Z. Qed.

Lemma keep_best_retains st t g :
  (0 <= t_n_active t)%Z ->
  retains_best (history rng st) (best_active rng st) (best rng st) ->
  retains_best (history rng (keep_best st t g))
               (best_active rng (keep_best st t g))
               (best rng (keep_best st t g)).
Proof.
  intros Hpos [Hmax Hbest]. unfold keep_best.
  destruct (Z.ltb_spec (best_active rng st) (t_n_active t)) as [Hlt|Hge];
    cbn [history best_active best]; split.
  - intros t' Ht'. apply elem_of_app in Ht' as [Ht'|Ht'].
    + specialize (Hmax t' Ht'). lia.
    + apply list_elem_of_singleton in Ht'. subst t'. lia.
  - right. exists (length (history rng st)), t.
    split; [now rewrite lookup_app_r, Nat.sub_diag by lia|].
    split; [reflexivity|].
    assert (0 <= best_active rng st)%Z as H0.
    { destruct Hbest as [[-> _]|(i & t0 & _ & _ & ? & _)]; lia. }
    split; [lia|]. split; [reflexivity|].
    intros j t' Hj Hl. rewrite lookup_app_l in Hl by exact Hj.
    apply list_elem_of_lookup_2 in Hl. specialize (Hmax t' Hl). lia.
  - intros t' Ht'. apply elem_of_app in Ht' as [Ht'|Ht'].
    + now apply Hmax.
    + apply list_elem_of_singleton in Ht'. now subst t'.
  - destruct Hbest as [[H0 Hn]|(i & t0 & Hi & Ht0 & Hp & Hb & Hfirst)].
    + left. now split.
    + right. exists i, t0.
      pose proof (lookup_lt_Some _ _ _ Hi) as Hlt.
      split; [now rewrite lookup_app_l by exact Hlt|].
      repeat (split; [assumption|]).
      intros j t' Hj Hl. rewrite lookup_app_l in Hl by lia.
      now apply (Hfirst j).
Qed.

Lemma trial_ok_nonneg P nd t : trial_ok P nd t -> (0 <= t_n_active t)%Z.
Proof. intros (p1 & p2 & ds & _ & _ & _ & _ & _ & _ & ->). lia. Qed.

Lemma ransac_spec P nd th :
  forall trials fuel st st',
    ransac trials fuel P nd th st = Ret st' ->
    Forall (trial_ok P nd) (history rng st) ->
    retains_best (history rng st) (best_active rng st) (best rng st) ->
    Forall (trial_ok P nd) (history rng st')
    /\ retains_best (history rng st') (best_active rng st') (best rng st')
    /\ exists new,
         history rng st' = history rng st ++ new
         /\ (length new <= trials)%nat
         /\ (forall (i : nat) t, new !! i = Some t ->
               (th < t_n_active t)%Z -> S i = length new)
         /\ ((length new < trials)%nat ->
             exists t, last new = Some t /\ (th < t_n_active t)%Z).
Proof.
  induction trials as [|k IH]; intros fuel st st' Hrun Hok Hbest.
  - injection Hrun as <-. split; [exact Hok|]. split; [exact Hbest|].
    exists []. rewrite app_nil_r. split; [reflexivity|].
    split; [simpl; lia|]. split; [intros i t Hi; discriminate Hi|].
    simpl. lia.
  - cbn [ransac] in Hrun.
    destruct (one_trial fuel P nd (rs rng st)) as [[t g]| |] eqn:Et;
      cbv beta iota delta [bind] in Hrun; try discriminate Hrun.
    pose proof (one_trial_ok rng rand _ _ _ _ _ _ Et) as Ht.
    pose proof (trial_ok_nonneg _ _ _ Ht) as Hpos.
    assert (Forall (trial_ok P nd) (history rng (keep_best st t g))) as Hok'.
    { rewrite keep_best_history. apply Forall_app. split; [exact Hok|].
      now constructor. }
    pose proof (keep_best_retains st t g Hpos Hbest) as Hbest'.
    destruct (Z.ltb_spec th (t_n_active t)) as [Hbr|Hno].
    + injection Hrun as <-. split; [exact Hok'|]. split; [exact Hbest'|].
      exists [t]. split; [apply keep_best_history|].
      split; [simpl; lia|].
      split; [intros [|i] t' Hi; [reflexivity|discriminate Hi]|].
      intros _. now exists t.
    + destruct (IH fuel _ _ Hrun Hok' Hbest')
        as (Hok'' & Hbest'' & new & Hh & Hlen & Hstop & Hearly).
      split; [exact Hok''|]. split; [exact Hbest''|].
      exists (t :: new). split.
      { rewrite Hh, keep_best_history, <- app_assoc. reflexivity. }
      split; [simpl; lia|]. split.
      * intros [|i] t' Hi Hgt.
        -- injection Hi as <-. lia.
        -- simpl. f_equal. now apply (Hstop i t').
      * simpl. intros Hl.
        destruct Hearly as (t' & Hlast & Hgt); [lia|].
        exists t'. split; [|exact Hgt].
        destruct new as [|u new]; [discriminate Hlast|exact Hlast].
Qed.

End Stage.


(** ** A threshold that no distance is below *)

Lemma abs_not_below_zero (v : float) : (abs v <? 0) = false.
Proof.
  rewrite ltb_spec, abs_spec.
  destruct (Prim2SF v) as [s|s| |s m e]; reflexivity.
Qed.

Lemma count_true_all_false {T} (l : list T) (f : T -> bool) :
  (forall v, f v = false) -> count_true (map f l) = 0%Z.
Proof.
  intros Hf. unfold count_true.
  induction l as [|v l IH]; [reflexivity|].
  cbn [map List.filter]. rewrite Hf. exact IH.
Qed.

Lemma trial_no_inlier (P : Vxy float) (t : trial) :
  trial_ok P 0 t -> t_n_active t = 0%Z.
Proof.
  intros (p1 & p2 & ds & _ & _ & _ & _ & Hds & Hmask & Hn).
  rewrite dist_from_ok in Hds. injection Hds as <-.
  rewrite Hn, Hmask, map_map.
  apply (count_true_all_false (data P)
           (fun p => abs (fst p * A (t_line t) + snd p * B (t_line t)
                          + C (t_line t)) <? 0)).
  intros v. apply abs_not_below_zero.
Qed.

Section NoInlier.
Variable rng : Type.
Variable seed_state : Z -> rng.
Variable rand : rng -> float * rng.
Variable minimize : (float * float -> float) -> float * float -> float * float.
Variables sin cos : float -> float.
Variable arctan2 : float -> float -> float.

(** With [neighbor_dist = 0] no trial has an inlier, nothing is retained,
    and [fit_from_points] never returns a line: once the 1000 trials are
    done, [Pxy[active_mask]] raises UnboundLocalError. *)
Theorem fit_zero_threshold_never_returns
    (fuel : nat) (Pxy : Vxy float) (seed : Z) :
  (forall L, fit_from_points rng seed_state rand minimize sin cos arctan2
               fuel Pxy seed 0 <> Ret L)
  /\ forall g st,
       ransac rng rand max_trials fuel Pxy 0 (thresh_of (len Pxy))
              (mkLoop rng g 0 None []) = Ret st ->
       best rng st = None.
Proof.
  assert (retains_best [] 0 None) as H0.
  { split; [intros t Ht; now apply elem_of_nil in Ht|now left]. }
  assert (Forall (trial_ok Pxy 0) []) as Hnil by constructor.
  assert (forall k g st,
            ransac rng rand k fuel Pxy 0 (thresh_of (len Pxy))
                   (mkLoop rng g 0 None []) = Ret st ->
            best rng st = None) as Hnone.
  { intros k g st Hrun.
    destruct (ransac_spec rng rand Pxy 0 _ _ _ _ _ Hrun Hnil H0)
      as (Hok & [_ Hbest] & _).
    clear Hrun.
    destruct Hbest as [[_ Hb]|(i & t & Hi & Ht & Hpos & _)]; [exact Hb|].
    apply list_elem_of_lookup_2 in Hi.
    rewrite Forall_forall in Hok.
    pose proof (trial_no_inlier Pxy t (Hok t Hi)) as Hz. lia. }
  split; [|apply Hnone].
  intros L. unfold fit_from_points. generalize max_trials. intros k.
  destruct (RandomState rng seed_state seed) as [g| |];
    cbv beta iota delta [bind]; try discriminate.
  destruct (len Pxy <=? 15)%nat; [discriminate|].
  destruct (ransac rng rand k fuel Pxy 0 _ _) as [st| |] eqn:Er;
    try discriminate.
  rewrite (Hnone k g st Er). discriminate.
Qed.
End NoInlier.

Lemma fit_zero_threshold_example :
  fit_example 0 diagonal16 1 0 = Raise UnboundLocalError.
Proof. vm_compute. reflexivity. Qed.

(** ** The refinement after the loop *)

Lemma trial_mask_length (P : Vxy float) (nd : float) (t : trial) :
  trial_ok P nd t -> length (t_mask t) = len P.
Proof.
  intros (p1 & p2 & ds & _ & _ & _ & _ & Hds & Hmask & _).
  rewrite dist_from_ok in Hds. injection Hds as <-.
  rewrite Hmask, !length_map. reflexivity.
Qed.

Section Refine.
Variable rng : Type.
Variable seed_state : Z -> rng.
Variable rand : rng -> float * rng.
Variable minimize : (float * float -> float) -> float * float -> float * float.
Variables sin cos : float -> float.
Variable arctan2 : float -> float -> float.

End Refine.


(** ** The model on small inputs *)

Example from_two_points_3_4 :
  from_two_points (mkVxy [(0, 0)]) (mkVxy [(3, 4)])
  = Ret (mkLineXY 0.80000000000000004 (-0.59999999999999998) (-0)).
Proof. vm_compute. reflexivity. Qed.

Example dist_from_3_4 :
  dist_from (mkLineXY 0.80000000000000004 (-0.59999999999999998) (-0))
            (mkVxy [(0, 0); (5, 0); (0, 5)])
  = Ret [0; 4; 3].
Proof. vm_compute. reflexivity. Qed.

Example intersect_axes :
  intersect_with (LineXY_init 1 0 0) (LineXY_init 0 1 0)
  = Ret (Some (mkVxy [(0, 0)])).
Proof. vm_compute. reflexivity. Qed.

Example intersect_parallel :
  intersect_with (LineXY_init 1 0 0) (LineXY_init 1 0 5) = Ret None.
Proof. vm_compute. reflexivity. Qed.

Example merge_three :
  merge [mkVxy [(1, 2)]; mkVxy []; mkVxy [(3, 4); (5, 6)]]
  = Ret (mkVxy [(1, 2); (3, 4); (5, 6)]).
Proof. vm_compute. reflexivity. Qed.

Example tiny_vector_has_zero_magnitude :
  _magnitude_with_zero_check (mkVxy [(1e-200, 0)])
  = Raise (ValueError ZeroVector).
Proof. vm_compute. reflexivity. Qed.

Example fit_same16_out_of_fuel :
  fit_example 100 same16 1 1 = OutOfFuel.
Proof. vm_compute. reflexivity. Qed.

Example fit_negative_seed :
  fit_example 0 diagonal15 (-1) 1 = Raise (ValueError NegativeSeed).
Proof. vm_compute. reflexivity. Qed.

(** * The rest of the two classes *)

(** ** Indexing, concatenation and the operators of [Vxy] *)

Section Containers.
Context {F : Type} {SF : Scalar F}.

Lemma getitem_column (self : Vxy F) (i : Z) :
  Vxy_getitem self (KInt i)
  = let* p := column (data self) i in Ret (mkVxy [p]).
Proof.
  unfold Vxy_getitem.
  destruct (column (data self) i) as [[a b]| |]; reflexivity.
Qed.

(** [Vxy.__getitem__] with an integer: an index [i] with [-n <= i < n]
    selects one column, counted from the end when it is negative; every
    other index raises IndexError. *)
Theorem getitem_int_bounds (self : Vxy F) (i : Z) :
  let n := Z.of_nat (len self) in
  if ((- n <=? i)%Z && (i <? n)%Z)%bool
  then exists p, data self !! Z.to_nat (i mod n) = Some p
                 /\ Vxy_getitem self (KInt i) = Ret (mkVxy [p])
  else Vxy_getitem self (KInt i) = Raise IndexError.
Proof.
  intros n. rewrite getitem_column. unfold column. fold (len self). fold n.
  destruct (Z.leb_spec (- n) i) as [Hlo|Hlo];
    destruct (Z.ltb_spec i n) as [Hhi|Hhi]; cbn [andb].
  - assert (Hm : (i mod n)%Z = if (i <? 0)%Z then (i + n)%Z else i).
    { destruct (Z.ltb_spec i 0).
      - symmetry. apply Z.mod_unique with (q := (-1)%Z); lia.
      - apply Z.mod_small. lia. }
    rewrite <- Hm.
    assert (Hr : (0 <= i mod n < n)%Z) by (apply Z.mod_pos_bound; lia).
    destruct (Z.leb_spec 0 (i mod n)); [|lia].
    destruct (Z.ltb_spec (i mod n) n); [|lia]. cbn [andb].
    destruct (lookup_lt_is_Some_2 (data self) (Z.to_nat (i mod n)))
      as [p Hp]; [subst n; unfold len in *; lia|].
    exists p. now rewrite Hp.
  - destruct (Z.ltb_spec i 0).
    + destruct (Z.leb_spec 0 (i + n)); destruct (Z.ltb_spec (i + n) n);
        try lia; reflexivity.
    + destruct (Z.leb_spec 0 i); destruct (Z.ltb_spec i n);
        try lia; reflexivity.
  - destruct (Z.ltb_spec i 0).
    + destruct (Z.leb_spec 0 (i + n)); destruct (Z.ltb_spec (i + n) n);
        try lia; reflexivity.
    + lia.
  - destruct (Z.ltb_spec i 0).
    + destruct (Z.leb_spec 0 (i + n)); destruct (Z.ltb_spec (i + n) n);
        try lia; reflexivity.
    + destruct (Z.leb_spec 0 i); destruct (Z.ltb_spec i n);
        try lia; reflexivity.
Qed.

Lemma select_sublist {T} (mask : list bool) (l : list T) :
  sublist (select mask l) l.
Proof.
  revert l. induction mask as [|b mask IH]; intros [|a l]; simpl;
    try apply sublist_nil_l.
  destruct b; [apply sublist_skip|apply sublist_cons]; apply IH.
Qed.

Lemma select_count {T} (mask : list bool) (l : list T) :
  length mask = length l ->
  Z.of_nat (length (select mask l)) = count_true mask.
Proof.
  unfold count_true. revert l.
  induction mask as [|b mask IH]; intros [|a l] Hlen;
    simpl in *; try discriminate; [reflexivity|].
  injection Hlen as Hlen. specialize (IH l Hlen).
  destruct b; simpl; lia.
Qed.

Lemma select_permutation {T} (mask : list bool) (l : list T) :
  length mask = length l ->
  Permutation (select mask l ++ select (map negb mask) l) l.
Proof.
  revert l. induction mask as [|b mask IH]; intros [|a l] Hlen;
    simpl in *; try discriminate; [constructor|].
  injection Hlen as Hlen. specialize (IH l Hlen).
  destruct b; simpl.
  - now constructor.
  - rewrite <- Permutation_middle. now constructor.
Qed.

(** [Vxy.__getitem__] with a boolean mask: a mask whose length is not the
    number of columns raises IndexError; otherwise the selection keeps the
    chosen columns in their order, as many as the mask has True entries,
    and the mask and its negation split the container: together the two
    selections hold every column exactly once. *)
Theorem getitem_mask_partition (self : Vxy F) (mask : list bool) :
  if (length mask =? len self)%nat
  then exists v w,
         Vxy_getitem self (KMask mask) = Ret v
         /\ Vxy_getitem self (KMask (map negb mask)) = Ret w
         /\ sublist (data v) (data self)
         /\ Z.of_nat (len v) = count_true mask
         /\ Permutation (data v ++ data w) (data self)
  else Vxy_getitem self (KMask mask) = Raise IndexError.
Proof.
  unfold Vxy_getitem. rewrite length_map.
  destruct (Nat.eqb_spec (length mask) (len self)) as [Hlen|Hlen];
    [|reflexivity].
  rewrite !from_data_ok.
  eexists _, _. split; [reflexivity|]. split; [reflexivity|].
  unfold len in *. cbn [data].
  split; [apply select_sublist|].
  split; [now apply select_count|now apply select_permutation].
Qed.

(** [Vxy.concatenate] never raises: the result holds the columns of
    [self] followed by those of [V], which is what [Vxy.merge] returns on
    the two-element list. *)
Theorem concatenate_appends (self V : Vxy F) :
  concatenate self V = Ret (mkVxy (data self ++ data V))
  /\ merge [self; V] = concatenate self V.
Proof.
  assert (H : concatenate self V = Ret (mkVxy (data self ++ data V))).
  { unfold concatenate.
    rewrite Vxy_init_2xN by (unfold x, y; now rewrite !length_app, !length_map).
    unfold x, y.
    rewrite combine_app_same by now rewrite !length_map.
    now rewrite !combine_fst_snd. }
  split; [exact H|].
  rewrite H, merge_data. cbn [map concat]. now rewrite app_nil_r.
Qed.

Lemma broadcast_cases {T} (f : F * F -> F * F -> T) (a b : list (F * F)) :
  if ((length a =? length b) || (length a =? 1) || (length b =? 1))%nat
  then exists l, broadcast f a b = Ret l
                 /\ length l = if (length a =? 1)%nat then length b
                               else length a
  else broadcast f a b = Raise (ValueError CannotBroadcast).
Proof.
  unfold broadcast.
  destruct (Nat.eqb_spec (length a) (length b)) as [E|E]; cbn [orb].
  - eexists. split; [reflexivity|].
    rewrite length_zip_with. destruct (length a =? 1)%nat; lia.
  - destruct a as [|p [|p' a]]; cbn [length Nat.eqb orb].
    + destruct b as [|q [|q' b]]; cbn [length Nat.eqb];
        try (eexists; split; reflexivity); reflexivity.
    + eexists. split; [reflexivity|]. now rewrite length_map.
    + destruct b as [|q [|q' b]]; cbn [length Nat.eqb];
        try (eexists; split; [reflexivity|]; now rewrite ?length_map);
        reflexivity.
Qed.

(** The operators [+], [-] and [*] between two containers follow numpy's
    broadcasting of the column axis: they return when the lengths agree
    or one of them is 1, with the length of the other operand (so a single
    point combined with an empty container gives an empty container), and
    raise ValueError otherwise. *)
Theorem operators_broadcast (a b : Vxy F) :
  if ((len a =? len b) || (len a =? 1) || (len b =? 1))%nat
  then exists u v w,
         Vxy_add a b = Ret u /\ Vxy_sub a b = Ret v
         /\ Vxy_mul a (Vector b) = Ret w
         /\ len u = (if (len a =? 1)%nat then len b else len a)
         /\ len v = len u /\ len w = len u
  else Vxy_add a b = Raise (ValueError CannotBroadcast)
       /\ Vxy_sub a b = Raise (ValueError CannotBroadcast)
       /\ Vxy_mul a (Vector b) = Raise (ValueError CannotBroadcast).
Proof.
  unfold Vxy_add, Vxy_sub, Vxy_mul, len.
  pose proof (broadcast_cases
    (fun p q => (s_add (fst p) (fst q), s_add (snd p) (snd q)))
    (data a) (data b)) as Ha.
  pose proof (broadcast_cases
    (fun p q => (s_sub (fst p) (fst q), s_sub (snd p) (snd q)))
    (data a) (data b)) as Hs.
  pose proof (broadcast_cases
    (fun p q => (s_mul (fst p) (fst q), s_mul (snd p) (snd q)))
    (data a) (data b)) as Hm.
  destruct (_ || _ || _).
  - destruct Ha as (la & -> & Hla), Hs as (ls & -> & Hls),
      Hm as (lm & -> & Hlm).
    cbv beta iota delta [bind]. rewrite !from_data_ok.
    eexists _, _, _. repeat (split; [reflexivity|]).
    cbn [data]. split; [exact Hla|]. split; congruence.
  - rewrite Ha, Hs, Hm. repeat split.
Qed.

Lemma squeeze_idem (shape : list nat) : squeeze (squeeze shape) = squeeze shape.
Proof.
  unfold squeeze. induction shape as [|d shape IH]; [reflexivity|].
  cbn [List.filter]. destruct (negb (d =? 1)%nat) eqn:E; [|exact IH].
  cbn [List.filter]. rewrite E. now f_equal.
Qed.

(** What [MeasurementSofastFixed.save_to_hdf] stores for the origin,
    [origin.data.squeeze()], is read back by [load_from_hdf] as the same
    container, whatever its number of columns (also 0 and 1, where the
    squeeze changes the shape). *)
Theorem origin_round_trip (origin : Vxy F) :
  loaded_origin (saved_origin origin) = Ret origin.
Proof.
  unfold loaded_origin, saved_origin, to_ndarray, nd_squeeze.
  cbn [Vxy_init]. rewrite squeeze_idem.
  pose proof (from_data_ok (data origin)) as H.
  unfold _from_data, to_ndarray in H. cbn [Vxy_init] in H.
  rewrite H. now destruct origin.
Qed.

End Containers.

(** ** Algebra of the binary64 operators *)

Lemma SFadd_comm (a b : spec_float) : SF64add a b = SF64add b a.
Proof.
  unfold SF64add, SFadd.
  destruct a as [[]|[]| |sa ma ea], b as [[]|[]| |sb mb eb]; try reflexivity.
  rewrite (Z.min_comm eb ea). f_equal. apply Z.add_comm.
Qed.

Lemma SFmul_comm (a b : spec_float) : SF64mul a b = SF64mul b a.
Proof.
  unfold SF64mul, SFmul.
  destruct a as [sa|sa| |sa ma ea], b as [sb|sb| |sb mb eb];
    cbv beta iota;
    rewrite ?(xorb_comm sb sa), ?(Pos.mul_comm mb ma), ?(Z.add_comm eb ea);
    reflexivity.
Qed.

Lemma add_comm (u v : float) : u + v = v + u.
Proof.
  rewrite (float_of_SF (u + v) _ (add_spec u v)).
  rewrite (float_of_SF (v + u) _ (add_spec v u)).
  now rewrite SFadd_comm.
Qed.

Lemma mul_comm (u v : float) : u * v = v * u.
Proof.
  rewrite (float_of_SF (u * v) _ (mul_spec u v)).
  rewrite (float_of_SF (v * u) _ (mul_spec v u)).
  now rewrite SFmul_comm.
Qed.




Lemma binary_round_aux_sign (s : bool) (m e : Z) (l : location) :
  binary_round_aux prec emax s m e l
  = with_sign s (binary_round_aux prec emax false m e l).
Proof.
  unfold binary_round_aux.
  destruct (shr_fexp prec emax m e l) as [mrs e'].
  destruct (shr_fexp prec emax _ e' loc_Exact) as [mrs' e''].
  destruct (shr_m mrs'); [reflexivity| |reflexivity].
  destruct (e'' <=? emax - prec)%Z; reflexivity.
Qed.

Lemma binary_round_sign (s : bool) (m : positive) (e : Z) :
  binary_round prec emax s m e
  = with_sign s (binary_round prec emax false m e).
Proof.
  unfold binary_round.
  destruct (shl_align m e _) as [mz ez]. apply binary_round_aux_sign.
Qed.

Lemma SFabs_with_sign (s : bool) (a : spec_float) :
  SFabs (with_sign s a) = SFabs a.
Proof. destruct a; reflexivity. Qed.

Lemma SFabs_normalize_opp (z e : Z) :
  SFabs (binary_normalize prec emax (- z) e false)
  = SFabs (binary_normalize prec emax z e false).
Proof.
  destruct z as [|p|p]; [reflexivity| |];
    change (SFabs (binary_round prec emax true p e)
            = SFabs (binary_round prec emax false p e))
      || change (SFabs (binary_round prec emax false p e)
                 = SFabs (binary_round prec emax true p e));
    now rewrite (binary_round_sign true), SFabs_with_sign.
Qed.

Lemma abs_sub_sym (u v : float) : abs (u - v) = abs (v - u).
Proof.
  rewrite (float_of_SF (abs (u - v)) _ (abs_spec (u - v))), sub_spec.
  rewrite (float_of_SF (abs (v - u)) _ (abs_spec (v - u))), sub_spec.
  f_equal. unfold SF64sub, SFsub.
  destruct (Prim2SF u) as [[]|[]| |su mu eu],
           (Prim2SF v) as [[]|[]| |sv mv ev]; try reflexivity.
  rewrite (Z.min_comm ev eu), <- SFabs_normalize_opp. do 2 f_equal. lia.
Qed.

(** Division by a zero: an infinity, or NaN. *)
Lemma div_by_zero (u v : float) :
  (v =? 0) = true ->
  u / v = infinity \/ u / v = neg_infinity \/ u / v = nan.
Proof.
  rewrite FloatAxioms.eqb_spec.
  rewrite (float_of_SF (u / v) _ (div_spec u v)).
  change (Prim2SF 0) with (S754_zero false).
  destruct (Prim2SF v) as [sv|[]| |[] mv ev]; try discriminate.
  intros _. unfold SF64div, SFdiv.
  destruct (Prim2SF u) as [su|su| |su mu eu]; try (now right; right);
    destruct su, sv; cbn [xorb]; auto.
Qed.

(** ** The operators of [Vxy] on float64 *)





(** ** Lines in exact arithmetic

    What the formulas of [LineXY] compute when no rounding occurs: the
    same definitions, at the real numbers. *)

Section ExactLineFacts.
Local Open Scope R_scope.










End ExactLineFacts.

(** The point of [intersect_with] is [intersection] at float64. *)
Lemma intersect_with_point (L1 L2 : LineXY float) (p : Vxy float) :
  intersect_with L1 L2 = Ret (Some p) -> data p = [intersection L1 L2].
Proof.
  unfold intersect_with. destruct (parallel L1 L2); [discriminate|].
  destruct L1 as [a1 b1 c1], L2 as [a2 b2 c2].
  unfold cross3, intersection, cross_ABC, ABC. cbn [A B C].
  intros [= <-]. reflexivity.
Qed.

Section ExactDistances.
Local Open Scope R_scope.





End ExactDistances.

(** ** Rotations and the heap *)

Section Rotations.
Context {F : Type} {SF : Scalar F}.

Lemma data_of_bound (self l : nat) (h : heap F) :
  objects h !! self = Some l -> data_of self h = arrays h !! l.
Proof. unfold data_of. now intros ->. Qed.

Lemma fresh_array (h : heap F) : arrays h !! fresh (dom (arrays h)) = None.
Proof. apply not_elem_of_dom, is_fresh. Qed.

Lemma fresh_object (h : heap F) : objects h !! fresh (dom (objects h)) = None.
Proof. apply not_elem_of_dom, is_fresh. Qed.

(** What [rotate_in_place] does to the heap. *)
Lemma rotate_in_place_heap (self : nat) (R : ndarray F) (h h' : heap F)
    (r : outcome unit) :
  rotate_in_place self R h = Some (r, h') ->
  (forall l d, arrays h !! l = Some d -> arrays h' !! l = Some d)
  /\ (forall o, o <> self -> objects h' !! o = objects h !! o).
Proof.
  unfold rotate_in_place.
  destruct (objects h !! self) as [l|]; [|discriminate].
  destruct (data_of self h) as [d|]; [|discriminate].
  destruct (bool_decide _).
  - destruct (nd_flat R) as [|r00 [|r01 [|r10 [|r11 [|]]]]]; try discriminate.
    intros [= <- <-]. cbn [arrays objects]. split.
    + intros l0 d0 H0. rewrite lookup_insert_ne; [exact H0|].
      intros E. rewrite <- E, fresh_array in H0. discriminate.
    + intros o Ho. now rewrite lookup_insert_ne.
  - intros [= <- <-]. split; auto.
Qed.

(** [rotate_in_place]: a rotation whose shape is not (2, 2) raises
    ValueError and changes nothing; otherwise [_data] is bound to the
    product [R @ _data], a new array, and no existing array is written:
    the array the object held (as seen through a reference taken from
    [.data] before the call) keeps the unrotated columns. *)
Theorem rotate_in_place_rebinds (self l : nat) (d : list (F * F))
    (R : ndarray F) (h : heap F) :
  objects h !! self = Some l -> arrays h !! l = Some d ->
  (nd_shape R <> [2; 2]%nat ->
   rotate_in_place self R h = Some (Failed RotationNotShape22, h))
  /\ (forall r00 r01 r10 r11,
        R = mkNd [2; 2]%nat [r00; r01; r10; r11] ->
        exists h', rotate_in_place self R h = Some (Done tt, h')
          /\ data_of self h' = Some (matmul ((r00, r01), (r10, r11)) d)
          /\ arrays h' !! l = Some d
          /\ (forall l0 d0, arrays h !! l0 = Some d0 ->
                arrays h' !! l0 = Some d0)
          /\ (forall o, o <> self -> objects h' !! o = objects h !! o)).
Proof.
  intros Hself Hl. split.
  - intros Hshape. unfold rotate_in_place.
    rewrite (data_of_bound _ _ _ Hself), Hself, Hl.
    now rewrite bool_decide_eq_false_2.
  - intros r00 r01 r10 r11 ->.
    destruct (rotate_in_place self (mkNd [2; 2]%nat [r00; r01; r10; r11]) h)
      as [[r h']|] eqn:E.
    + pose proof (rotate_in_place_heap _ _ _ _ _ E) as [Ha Ho].
      unfold rotate_in_place in E.
      rewrite (data_of_bound _ _ _ Hself), Hself, Hl in E.
      cbn [nd_shape nd_flat] in E.
      rewrite bool_decide_eq_true_2 in E by reflexivity.
      injection E as <- <-. eexists. split; [reflexivity|].
      split; [|split; [|split]].
      * unfold data_of. cbn [objects arrays].
        now rewrite !lookup_insert_eq.
      * apply Ha, Hl.
      * exact Ha.
      * exact Ho.
    + unfold rotate_in_place in E.
      rewrite (data_of_bound _ _ _ Hself), Hself, Hl in E.
      cbn [nd_shape nd_flat] in E.
      rewrite bool_decide_eq_true_2 in E by reflexivity. discriminate.
Qed.

(** What [rotate_about_in_place] does to the heap: it writes only the
    array of [self] (and arrays it creates), and binds only [self]. *)
Lemma rotate_about_in_place_heap (self pivot l : nat) (R : ndarray F)
    (h h' : heap F) (r : outcome unit) :
  objects h !! self = Some l ->
  rotate_about_in_place self R pivot h = Some (r, h') ->
  (forall l0 d, l0 <> l -> arrays h !! l0 = Some d -> arrays h' !! l0 = Some d)
  /\ (forall o, o <> self -> objects h' !! o = objects h !! o).
Proof.
  intros Hself. unfold rotate_about_in_place. rewrite Hself.
  destruct (data_of self h) as [a|]; [|discriminate].
  destruct (data_of pivot h) as [b|]; [|discriminate].
  destruct (in_place s_sub a b) as [a'|]; [|intros [= <- <-]; split; auto].
  set (h1 := mkHeap (<[l := a']> (arrays h)) (objects h)).
  destruct (rotate_in_place self R h1) as [[[[]|e] h2]|] eqn:E;
    [| |discriminate].
  - destruct (rotate_in_place_heap _ _ _ _ _ E) as [Ha Ho].
    assert (Hl2 : objects h2 !! self = Some (fresh (dom (arrays h1)))).
    { unfold rotate_in_place in E.
      destruct (objects h1 !! self); [|discriminate].
      destruct (data_of self h1); [|discriminate].
      destruct (bool_decide _); [|discriminate].
      destruct (nd_flat R) as [|r00 [|r01 [|r10 [|r11 [|]]]]]; try discriminate.
      injection E as <-. cbn [objects]. now rewrite lookup_insert_eq. }
    rewrite Hl2.
    destruct (data_of self h2) as [c|]; [|discriminate].
    destruct (data_of pivot h2) as [b2|]; [|discriminate].
    assert (Hold : forall l0 d, l0 <> l -> arrays h !! l0 = Some d ->
                     arrays h2 !! l0 = Some d
                     /\ l0 <> fresh (dom (arrays h1))).
    { intros l0 d0 Hne H0.
      assert (H1 : arrays h1 !! l0 = Some d0)
        by (unfold h1; cbn [arrays]; now rewrite lookup_insert_ne).
      split; [now apply Ha|].
      intros E0. rewrite E0, fresh_array in H1. discriminate. }
    destruct (in_place s_add c b2) as [c'|]; intros [= <- <-].
    + cbn [arrays objects]. split; [|exact Ho].
      intros l0 d0 Hne H0. destruct (Hold l0 d0 Hne H0) as [H2 Hf].
      now rewrite lookup_insert_ne.
    + split; [|exact Ho]. intros l0 d0 Hne H0. now apply Hold.
  - intros [= <- <-].
    destruct (rotate_in_place_heap _ _ _ _ _ E) as [Ha Ho].
    split; [|exact Ho]. intros l0 d0 Hne H0. apply Ha.
    unfold h1. cbn [arrays]. now rewrite lookup_insert_ne.
Qed.

(** An operation on a copy leaves the heap it started from as it was. *)
Lemma on_copy_heap (self : nat)
    (op : nat -> heap F -> option (outcome unit * heap F))
    (h h' : heap F) (r : outcome nat) :
  (forall V_out l h1 h2 r1,
     objects h1 !! V_out = Some l -> op V_out h1 = Some (r1, h2) ->
     (forall l0 d, l0 <> l -> arrays h1 !! l0 = Some d ->
        arrays h2 !! l0 = Some d)
     /\ (forall o, o <> V_out -> objects h2 !! o = objects h1 !! o)) ->
  on_copy self op h = Some (r, h') ->
  (forall l d, arrays h !! l = Some d -> arrays h' !! l = Some d)
  /\ (forall o l, objects h !! o = Some l -> objects h' !! o = Some l).
Proof.
  intros Hop. unfold on_copy.
  destruct (data_of self h) as [d|]; [|discriminate].
  rewrite from_data_ok. cbn [data]. unfold new_Vxy.
  set (lf := fresh (dom (arrays h))).
  set (V_out := fresh (dom (objects h))).
  set (h1 := mkHeap (<[lf := d]> (arrays h)) (<[V_out := lf]> (objects h))).
  assert (Hb : objects h1 !! V_out = Some lf)
    by (unfold h1; cbn [objects]; now rewrite lookup_insert_eq).
  destruct (op V_out h1) as [[r1 h2]|] eqn:E; [|discriminate].
  destruct (Hop _ _ _ _ _ Hb E) as [Ha Ho].
  assert (K : (forall l d, arrays h !! l = Some d -> arrays h2 !! l = Some d)
              /\ (forall o l, objects h !! o = Some l ->
                    objects h2 !! o = Some l)).
  { split.
    - intros l0 d0 H0.
      assert (l0 <> lf)
        by (intros E0; unfold lf in E0; rewrite E0, fresh_array in H0;
            discriminate).
      apply Ha; [assumption|]. unfold h1. cbn [arrays].
      now rewrite lookup_insert_ne.
    - intros o l0 H0.
      assert (o <> V_out)
        by (intros E0; unfold V_out in E0; rewrite E0, fresh_object in H0;
            discriminate).
      rewrite Ho by assumption. unfold h1. cbn [objects].
      now rewrite lookup_insert_ne. }
  destruct r1; intros [= <- <-]; exact K.
Qed.

(** [rotate] and [rotate_about] work on a copy: whether they return or
    raise, every object that existed before the call still names the same
    array and every array still holds the same columns, so every container
    (the receiver and the pivot included) reads as before. *)
Theorem rotate_copies_leave_heap (self pivot : nat) (R : ndarray F)
    (h h' : heap F) (r : outcome nat) :
  rotate self R h = Some (r, h')
  \/ rotate_about self R pivot h = Some (r, h') ->
  (forall l d, arrays h !! l = Some d -> arrays h' !! l = Some d)
  /\ (forall o l, objects h !! o = Some l -> objects h' !! o = Some l)
  /\ (forall o d, data_of o h = Some d -> data_of o h' = Some d).
Proof.
  intros H.
  assert (K : (forall l d, arrays h !! l = Some d -> arrays h' !! l = Some d)
              /\ (forall o l, objects h !! o = Some l ->
                    objects h' !! o = Some l)).
  { destruct H as [H|H]; revert H; apply on_copy_heap.
    - intros V_out l h1 h2 r1 _ E.
      destruct (rotate_in_place_heap _ _ _ _ _ E) as [Ha Ho].
      split; [|exact Ho]. intros l0 d0 _. apply Ha.
    - intros V_out l h1 h2 r1 Hb E.
      exact (rotate_about_in_place_heap _ _ _ _ _ _ _ Hb E). }
  destruct K as [Ha Ho]. split; [exact Ha|]. split; [exact Ho|].
  intros o d Hd. unfold data_of in *.
  destruct (objects h !! o) as [l|] eqn:El; [|discriminate].
  rewrite (Ho _ _ El). now apply Ha.
Qed.

End Rotations.

Section RotationSteps.
Context {F : Type} {SF : Scalar F}.

Lemma rotate_in_place_done (self l : nat) (d : list (F * F))
    (r00 r01 r10 r11 : F) (h : heap F) :
  objects h !! self = Some l -> arrays h !! l = Some d ->
  rotate_in_place self (mkNd [2; 2]%nat [r00; r01; r10; r11]) h
  = Some (Done tt,
          mkHeap (<[fresh (dom (arrays h))
                    := matmul ((r00, r01), (r10, r11)) d]> (arrays h))
                 (<[self := fresh (dom (arrays h))]> (objects h))).
Proof.
  intros Hself Hl. unfold rotate_in_place.
  rewrite (data_of_bound _ _ _ Hself), Hself, Hl. cbn [nd_shape nd_flat].
  now rewrite bool_decide_eq_true_2.
Qed.

Lemma rotate_in_place_failed (self l : nat) (d : list (F * F))
    (R : ndarray F) (h : heap F) :
  objects h !! self = Some l -> arrays h !! l = Some d ->
  nd_shape R <> [2; 2]%nat ->
  rotate_in_place self R h = Some (Failed RotationNotShape22, h).
Proof.
  intros Hself Hl Hshape. unfold rotate_in_place.
  rewrite (data_of_bound _ _ _ Hself), Hself, Hl.
  now rewrite bool_decide_eq_false_2.
Qed.

Lemma in_place_same_length (f : F -> F -> F) (a b : list (F * F)) :
  length b = length a ->
  in_place f a b
  = Some (zip_with (fun p q => (f (fst p) (fst q), f (snd p) (snd q))) a b).
Proof. intros E. unfold in_place. now rewrite E, Nat.eqb_refl. Qed.

Lemma in_place_length (f : F -> F -> F) (a b a' : list (F * F)) :
  in_place f a b = Some a' -> length a' = length a.
Proof.
  unfold in_place. destruct (Nat.eqb_spec (length b) (length a)) as [E|E].
  - intros [= <-]. rewrite length_zip_with. lia.
  - destruct b as [|q [|]]; try discriminate. intros [= <-].
    now rewrite length_map.
Qed.

Lemma zip_with_diag {T U} (f : T -> T -> U) (l : list T) :
  zip_with f l l = map (fun p => f p p) l.
Proof. induction l as [|p l IH]; cbn; [reflexivity|now rewrite IH]. Qed.

Lemma zip_with_map_l {T U V W} (f : U -> V -> W) (g : T -> U)
    (l : list T) (k : list V) :
  zip_with f (map g l) k = zip_with (fun p q => f (g p) q) l k.
Proof.
  revert k. induction l as [|p l IH]; intros [|q k]; cbn;
    try reflexivity. now rewrite IH.
Qed.

(** The heap after [new_Vxy]: the copy is a new object on a new array. *)
Lemma new_Vxy_heap (cols : list (F * F)) (h : heap F) :
  let V_out := fresh (dom (objects h)) in
  let lf := fresh (dom (arrays h)) in
  new_Vxy cols h
  = (V_out, mkHeap (<[lf := cols]> (arrays h)) (<[V_out := lf]> (objects h)))
  /\ (forall o l, objects h !! o = Some l -> o <> V_out)
  /\ (forall l d, arrays h !! l = Some d -> l <> lf).
Proof.
  cbv zeta. split; [reflexivity|]. split.
  - intros o l H E. rewrite E, fresh_object in H. discriminate.
  - intros l d H E. rewrite E, fresh_array in H. discriminate.
Qed.

(** [rotate_about_in_place] is not atomic: with a rotation whose shape is
    not (2, 2) it raises the ValueError of [rotate_in_place] after the
    pivot has been subtracted in place, and the container is left
    translated by [-pivot]; [rotate_about] raises the same error and
    leaves the container as it was. *)
Theorem rotate_about_in_place_not_atomic (self pivot l : nat)
    (R : ndarray F) (h : heap F) (a b a' : list (F * F)) :
  objects h !! self = Some l -> arrays h !! l = Some a ->
  data_of pivot h = Some b ->
  in_place s_sub a b = Some a' ->
  nd_shape R <> [2; 2]%nat ->
  (exists h', rotate_about_in_place self R pivot h
              = Some (Failed RotationNotShape22, h')
              /\ data_of self h' = Some a')
  /\ (exists h', rotate_about self R pivot h
                 = Some (Failed RotationNotShape22, h')
                 /\ data_of self h' = Some a).
Proof.
  intros Hself Hl Hp Hsub Hshape.
  assert (Hd : data_of self h = Some a)
    by now rewrite (data_of_bound _ _ _ Hself).
  split.
  - unfold rotate_about_in_place. rewrite Hself, Hd, Hp, Hsub.
    rewrite (rotate_in_place_failed self l a'); try assumption;
      cbn [arrays objects]; try now rewrite ?lookup_insert_eq.
    eexists. split; [reflexivity|].
    unfold data_of. cbn [arrays objects]. rewrite Hself.
    now rewrite lookup_insert_eq.
  - unfold rotate_about, on_copy. rewrite Hd, from_data_ok. cbn [data].
    destruct (new_Vxy_heap a h) as (-> & Hobj & Harr).
    set (V_out := fresh (dom (objects h))) in *.
    set (lf := fresh (dom (arrays h))) in *.
    assert (Hsv : self <> V_out) by (apply (Hobj _ _ Hself)).
    assert (Hlf : l <> lf) by (apply (Harr _ _ Hl)).
    unfold rotate_about_in_place. cbn [arrays objects].
    rewrite lookup_insert_eq.
    assert (E1 : data_of V_out
                   (mkHeap (<[lf := a]> (arrays h))
                           (<[V_out := lf]> (objects h))) = Some a).
    { unfold data_of. cbn [arrays objects]. now rewrite !lookup_insert_eq. }
    assert (E2 : data_of pivot
                   (mkHeap (<[lf := a]> (arrays h))
                           (<[V_out := lf]> (objects h))) = Some b).
    { unfold data_of in Hp |- *. cbn [arrays objects].
      destruct (objects h !! pivot) as [lp|] eqn:Ep; [|discriminate].
      rewrite lookup_insert_ne by (symmetry; apply (Hobj _ _ Ep)).
      rewrite Ep. rewrite lookup_insert_ne by (symmetry; apply (Harr _ _ Hp)).
      exact Hp. }
    rewrite E1, E2, Hsub.
    rewrite (rotate_in_place_failed V_out lf a'); try assumption;
      cbn [arrays objects]; try now rewrite ?lookup_insert_eq.
    eexists. split; [reflexivity|].
    unfold data_of. cbn [arrays objects].
    rewrite lookup_insert_ne by congruence. rewrite Hself.
    now rewrite !lookup_insert_ne by congruence.
Qed.

End RotationSteps.

(** *** Rotations in exact arithmetic *)

Section ExactRotations.
Local Open Scope R_scope.


End ExactRotations.

Section RotateAbout.
Context {F : Type} {SF : Scalar F}.

(** [rotate_about] when the two in-place steps broadcast: the copy holds
    [R @ (a - b) + b], where [b] is the pivot as it was before the call. *)
Lemma rotate_about_done (self pivot : nat) (r00 r01 r10 r11 : F)
    (h : heap F) (a b a' c' : list (F * F)) :
  data_of self h = Some a -> data_of pivot h = Some b ->
  in_place s_sub a b = Some a' ->
  in_place s_add (matmul ((r00, r01), (r10, r11)) a') b = Some c' ->
  exists V_out h',
    rotate_about self (mkNd [2; 2]%nat [r00; r01; r10; r11]) pivot h
    = Some (Done V_out, h')
    /\ data_of V_out h' = Some c'.
Proof.
  intros Hd Hp Hsub Hadd.
  unfold rotate_about, on_copy. rewrite Hd, from_data_ok. cbn [data].
  destruct (new_Vxy_heap a h) as (-> & Hobj & Harr).
  set (V_out := fresh (dom (objects h))) in *.
  set (lf := fresh (dom (arrays h))) in *.
  unfold data_of in Hp.
  destruct (objects h !! pivot) as [lp|] eqn:Ep; [|discriminate].
  assert (Hpv : pivot <> V_out) by apply (Hobj _ _ Ep).
  assert (Hlp : lp <> lf) by apply (Harr _ _ Hp).
  unfold rotate_about_in_place. cbn [arrays objects].
  rewrite lookup_insert_eq.
  unfold data_of at 1 2. cbn [arrays objects].
  rewrite !lookup_insert_eq, lookup_insert_ne, Ep by congruence.
  rewrite lookup_insert_ne, Hp, Hsub by congruence.
  set (h1 := mkHeap (<[lf := a']> (<[lf := a]> (arrays h)))
                    (<[V_out := lf]> (objects h))).
  assert (Hb1 : objects h1 !! V_out = Some lf)
    by (unfold h1; cbn [objects]; now rewrite lookup_insert_eq).
  assert (Ha1 : arrays h1 !! lf = Some a')
    by (unfold h1; cbn [arrays]; now rewrite lookup_insert_eq).
  rewrite (rotate_in_place_done V_out lf a' _ _ _ _ h1 Hb1 Ha1).
  set (l2 := fresh (dom (arrays h1))).
  assert (Hp1 : arrays h1 !! lp = Some b)
    by (unfold h1; cbn [arrays]; now rewrite !lookup_insert_ne by congruence).
  assert (Hl2 : lp <> l2).
  { intros E. unfold l2 in E. rewrite E, fresh_array in Hp1. discriminate. }
  cbn [arrays objects]. rewrite lookup_insert_eq.
  unfold data_of. cbn [arrays objects].
  rewrite !lookup_insert_eq, lookup_insert_ne by congruence.
  assert (Ep1 : objects h1 !! pivot = Some lp)
    by (unfold h1; cbn [objects]; now rewrite lookup_insert_ne by congruence).
  rewrite Ep1, lookup_insert_ne, Hp1, Hadd by congruence.
  eexists _, _. split; [reflexivity|].
  cbn [arrays objects]. now rewrite !lookup_insert_eq.
Qed.

End RotateAbout.

Section ExactRotateAbout.
Local Open Scope R_scope.


End ExactRotateAbout.

(** *** A container as its own pivot, on float64 *)

Lemma is_finite_cases (v : float) :
  is_finite v = true ->
  (exists s, Prim2SF v = S754_zero s)
  \/ (exists s m e, Prim2SF v = S754_finite s m e).
Proof.
  unfold is_finite, is_nan, is_infinity.
  rewrite !FloatAxioms.eqb_spec, abs_spec.
  change (Prim2SF infinity) with (S754_infinity false).
  destruct (Prim2SF v) as [s|s| |s m e].
  - intros _. left. now exists s.
  - destruct s; intros H; cbv in H; discriminate H.
  - intros H. cbv in H. discriminate H.
  - intros _. right. now exists s, m, e.
Qed.

Lemma sub_diag_finite (v : float) : is_finite v = true -> v - v = 0.
Proof.
  intros H. rewrite (float_of_SF (v - v) _ (sub_spec v v)).
  destruct (is_finite_cases v H) as [[s ->]|(s & m & e & ->)];
    unfold SF64sub, SFsub.
  - destruct s; reflexivity.
  - rewrite Z.min_id, Z.sub_diag. reflexivity.
Qed.

Lemma mul_zero_finite (r z : float) :
  is_finite r = true -> is_zero_value z -> is_zero_value (r * z).
Proof.
  intros H Hz. unfold is_zero_value.
  rewrite (float_of_SF (r * z) _ (mul_spec r z)).
  destruct (is_finite_cases r H) as [[s ->]|(s & m & e & ->)];
    destruct Hz as [-> | ->]; destruct s; vm_compute; tauto.
Qed.

Lemma add_zeros (u v : float) :
  is_zero_value u -> is_zero_value v -> is_zero_value (u + v).
Proof.
  intros [-> | ->] [-> | ->]; vm_compute; tauto.
Qed.

Lemma zero_value_eqb (v : float) : is_zero_value v -> (v =? 0) = true.
Proof. intros [-> | ->]; reflexivity. Qed.

Lemma SFeqb_refl_finite (s : bool) (m : positive) (e : Z) :
  SFeqb (S754_finite s m e) (S754_finite s m e) = true.
Proof.
  unfold SFeqb, SFcompare.
  change (Pos.compare_cont Eq m m) with (Pos.compare m m).
  rewrite Z.compare_refl, Pos.compare_refl. now destruct s.
Qed.

Lemma add_zero_finite (z v : float) :
  is_zero_value z -> is_finite v = true -> (z + v =? v) = true.
Proof.
  intros Hz H. rewrite FloatAxioms.eqb_spec, add_spec.
  destruct (is_finite_cases v H) as [[s ->]|(s & m & e & ->)];
    destruct Hz as [-> | ->].
  - destruct s; reflexivity.
  - destruct s; reflexivity.
  - apply SFeqb_refl_finite.
  - apply SFeqb_refl_finite.
Qed.

Lemma Forall2_map_diag {T} (Q : T -> T -> Prop) (g : T -> T) (l : list T) :
  Forall (fun p => Q (g p) p) l -> Forall2 Q (map g l) l.
Proof. induction 1; cbn; constructor; assumption. Qed.

Lemma rotated_zero (r s u v : float) :
  is_finite r = true -> is_finite s = true ->
  is_finite u = true -> is_finite v = true ->
  is_zero_value (r * (u - u) + s * (v - v)).
Proof.
  intros Hr Hs Hu Hv. rewrite (sub_diag_finite u Hu), (sub_diag_finite v Hv).
  apply add_zeros; apply mul_zero_finite; try assumption; now left.
Qed.

(** A container given as its own pivot, with finite coordinates and a
    finite 2x2 matrix: [rotate_about_in_place] leaves every column equal
    to (0, 0), because the pivot read for the final [+=] is the container
    itself, already centred and rotated; [rotate_about] reads the pivot
    from the untouched original and returns columns equal to the original
    ones. *)
Theorem rotate_about_own_pivot (self l : nat) (d : list (float * float))
    (r00 r01 r10 r11 : float) (h : heap float) :
  objects h !! self = Some l -> arrays h !! l = Some d ->
  forallb finite_point d = true ->
  is_finite r00 && is_finite r01 && is_finite r10 && is_finite r11 = true ->
  (exists h' d',
     rotate_about_in_place self (mkNd [2; 2]%nat [r00; r01; r10; r11]) self h
     = Some (Done tt, h')
     /\ data_of self h' = Some d' /\ length d' = length d
     /\ Forall (fun p => same_point p (0, 0) = true) d')
  /\ (exists V_out h' d',
        rotate_about self (mkNd [2; 2]%nat [r00; r01; r10; r11]) self h
        = Some (Done V_out, h')
        /\ data_of V_out h' = Some d'
        /\ Forall2 (fun p q => same_point p q = true) d' d).
Proof.
  intros Hself Hl Hfin HR.
  apply andb_prop in HR as [HR H11]. apply andb_prop in HR as [HR H10].
  apply andb_prop in HR as [H00 H01].
  assert (Hd : data_of self h = Some d)
    by now rewrite (data_of_bound _ _ _ Hself).
  assert (Hpts : Forall (fun p => is_finite (fst p) = true
                                  /\ is_finite (snd p) = true) d).
  { apply List.Forall_forall. intros p Hp.
    rewrite forallb_forall in Hfin. apply andb_prop, Hfin, Hp. }
  set (a' := zip_with (fun p q : float * float =>
                         (s_sub (fst p) (fst q), s_sub (snd p) (snd q))) d d).
  set (c := matmul ((r00, r01), (r10, r11)) a').
  assert (Hlc : length c = length d).
  { unfold c, matmul, a'. rewrite length_map, length_zip_with. lia. }
  split.
  - unfold rotate_about_in_place. rewrite Hself, Hd.
    rewrite (in_place_same_length s_sub d d eq_refl). fold a'.
    set (h1 := mkHeap (<[l := a']> (arrays h)) (objects h)).
    assert (Ha1 : arrays h1 !! l = Some a')
      by (unfold h1; cbn [arrays]; now rewrite lookup_insert_eq).
    rewrite (rotate_in_place_done self l a' _ _ _ _ h1 Hself Ha1). fold c.
    cbn [arrays objects]. rewrite lookup_insert_eq.
    unfold data_of. cbn [arrays objects]. rewrite !lookup_insert_eq.
    rewrite (in_place_same_length s_add c c eq_refl).
    eexists _, _. split; [reflexivity|].
    cbn [arrays objects]. rewrite !lookup_insert_eq.
    split; [reflexivity|]. split; [rewrite length_zip_with; lia|].
    rewrite zip_with_diag. unfold c, matmul, a'.
    rewrite zip_with_diag, !map_map. apply Forall_map.
    eapply Forall_impl; [exact Hpts|]. intros [u v] [Hu Hv].
    cbn [fst snd] in *. unfold same_point. cbn [fst snd].
    apply andb_true_intro.
    split; apply zero_value_eqb, add_zeros; now apply rotated_zero.
  - destruct (rotate_about_done self self r00 r01 r10 r11 h d d a'
                (zip_with (fun p q : float * float =>
                             (s_add (fst p) (fst q), s_add (snd p) (snd q)))
                          c d) Hd Hd)
      as (V_out & h' & Hr & Hout).
    + apply (in_place_same_length s_sub d d eq_refl).
    + fold c. apply in_place_same_length. now rewrite Hlc.
    + eexists _, _, _. split; [exact Hr|]. split; [exact Hout|].
      unfold c, matmul, a'. rewrite zip_with_diag, map_map, zip_with_map_l.
      rewrite zip_with_diag. apply Forall2_map_diag.
      eapply Forall_impl; [exact Hpts|]. intros [u v] [Hu Hv].
      cbn [fst snd] in *. unfold same_point. cbn [fst snd].
      apply andb_true_intro.
      split; apply add_zero_finite; try assumption; now apply rotated_zero.
Qed.

(** ** Parallel lines and degenerate coordinates on float64 *)

Lemma parallel_sym (L1 L2 : LineXY float) : parallel L1 L2 = parallel L2 L1.
Proof.
  unfold parallel. rewrite (abs_sub_sym (slope L2)).
  destruct (abs (A L1) <? tol), (abs (A L2) <? tol),
           (abs (B L1) <? tol), (abs (B L2) <? tol); reflexivity.
Qed.

Lemma intersect_with_parallel (L1 L2 : LineXY float) :
  intersect_with L1 L2 = Ret None <-> parallel L1 L2 = true.
Proof.
  unfold intersect_with. destruct (parallel L1 L2).
  - split; reflexivity.
  - destruct (cross3 (ABC L1) (ABC L2)) as [[v0 v1] v2].
    split; discriminate.
Qed.

(** Whether [intersect_with] answers None does not depend on which of the
    two lines receives the call, and it never raises. *)
Theorem intersect_with_none_symmetric (L1 L2 : LineXY float) :
  (intersect_with L1 L2 = Ret None <-> intersect_with L2 L1 = Ret None)
  /\ exists r, intersect_with L1 L2 = Ret r.
Proof.
  split.
  - now rewrite !intersect_with_parallel, parallel_sym.
  - unfold intersect_with. destruct (parallel L1 L2); [eauto|].
    destruct (cross3 (ABC L1) (ABC L2)) as [[v0 v1] v2]. eauto.
Qed.

(** [y_from_x] on a vertical line (B compares equal to 0) does not raise:
    every ordinate it returns is an infinity or NaN. *)
Theorem y_from_x_vertical (L : LineXY float) (xs : list float) :
  (B L =? 0) = true ->
  length (y_from_x L xs) = length xs
  /\ Forall (fun y => y = infinity \/ y = neg_infinity \/ y = nan)
            (y_from_x L xs).
Proof.
  intros HB. unfold y_from_x. split; [apply length_map|].
  apply Forall_map, Forall_true. intros x. cbn. now apply div_by_zero.
Qed.

(** The same for [x_from_y] on a horizontal line. *)
Lemma x_from_y_horizontal (L : LineXY float) (ys : list float) :
  (A L =? 0) = true ->
  Forall (fun x => x = infinity \/ x = neg_infinity \/ x = nan)
         (x_from_y L ys).
Proof.
  intros HA. unfold x_from_y.
  apply Forall_map, Forall_true. intros x. cbn. now apply div_by_zero.
Qed.

(** ** The exceptions of the fit *)

Section FitExceptions.
Variable rng : Type.
Variable seed_state : Z -> rng.
Variable rand : rng -> float * rng.
Variable minimize : (float * float -> float) -> float * float -> float * float.
Variables sin cos : float -> float.
Variable arctan2 : float -> float -> float.

Lemma resample_in_range fuel P i1 i2 g e :
  in_range rng rand (len P) ->
  (0 <= i1 < Z.of_nat (len P))%Z -> (0 <= i2 < Z.of_nat (len P))%Z ->
  resample rng rand fuel P i1 i2 g <> Raise e.
Proof.
  intros Hrange H1. revert i2 g.
  destruct (column_in_range (data P) i1 H1) as (p1 & E1 & _).
  induction fuel as [|fuel IH]; intros i2 g H2;
    destruct (column_in_range (data P) i2 H2) as (p2 & E2 & _);
    simpl; rewrite E1, E2; cbv beta iota delta [bind];
    destruct (same_point p1 p2); try discriminate.
  pose proof (Hrange g) as Hg. destruct (rand g) as [r g']. cbn [fst] in Hg.
  now apply IH.
Qed.

Lemma one_trial_in_range fuel P nd g e :
  in_range rng rand (len P) ->
  one_trial rng rand fuel P nd g <> Raise e.
Proof.
  intros Hrange. rewrite one_trial_eq. cbv zeta.
  destruct (resample _ _ _ _ _ _ _) as [[j g3]| |] eqn:Er;
    cbv beta iota delta [bind]; try discriminate.
  - destruct (resample_ret _ _ _ _ _ _ _ _ _ Er) as (p1 & p2 & H1 & H2 & Hs).
    rewrite H1, H2, from_two_points_single. cbv beta iota zeta.
    rewrite dist_from_ok. discriminate.
  - exfalso. revert Er. apply resample_in_range; auto.
Qed.

Lemma ransac_in_range trials fuel P nd th st e :
  in_range rng rand (len P) ->
  ransac rng rand trials fuel P nd th st <> Raise e.
Proof.
  intros Hrange. revert st.
  induction trials as [|k IH]; intros st; simpl; [discriminate|].
  destruct (one_trial rng rand fuel P nd (rs rng st)) as [[t g]| |] eqn:E;
    cbv beta iota delta [bind]; try discriminate.
  - destruct (th <? t_n_active t)%Z; [discriminate|]. apply IH.
  - exfalso. revert E. now apply one_trial_in_range.
Qed.

(** With a generator that draws only indices of the container,
    [fit_from_points] raises nothing but: the ValueError of numpy for a
    negative seed; the too-few-points ValueError for 15 points or fewer;
    and, with 16 points or more, UnboundLocalError when no trial retained
    a candidate. *)
Theorem fit_exceptions (fuel : nat) (Pxy : Vxy float) (seed : Z)
    (neighbor_dist : float) (e : exn) :
  in_range rng rand (len Pxy) ->
  fit_from_points rng seed_state rand minimize sin cos arctan2
    fuel Pxy seed neighbor_dist = Raise e ->
  (e = ValueError NegativeSeed /\ (seed < 0)%Z)
  \/ (e = ValueError (TooFewPoints (len Pxy))
      /\ (0 <= seed)%Z /\ (len Pxy <= 15)%nat)
  \/ (e = UnboundLocalError /\ (0 <= seed)%Z /\ (16 <= len Pxy)%nat).
Proof.
  intros Hrange.
  assert (retains_best [] 0 None) as H0.
  { split; [intros t Ht; now apply elem_of_nil in Ht|now left]. }
  assert (Forall (trial_ok Pxy neighbor_dist) []) as Hnil by constructor.
  unfold fit_from_points, RandomState. generalize max_trials. intros k.
  destruct (Z.ltb_spec seed 0) as [Hs|Hs]; cbv beta iota delta [bind].
  { intros [= <-]. left. split; [reflexivity|lia]. }
  destruct (Nat.leb_spec (len Pxy) 15) as [Hn|Hn].
  { intros [= <-]. right. left. repeat split; lia. }
  destruct (ransac rng rand k fuel Pxy neighbor_dist _ _) as [st|e'|] eqn:Er;
    [| |discriminate].
  - destruct (ransac_spec rng rand Pxy neighbor_dist _ _ _ _ _ Er Hnil H0)
      as (Hok & [_ Hbest] & _).
    clear Er.
    destruct (best rng st) as [b|].
    + destruct Hbest as [[_ Hb]|(i & t & Hi & _ & _ & Hb & _)];
        [discriminate Hb|].
      injection Hb as ->. apply list_elem_of_lookup_2 in Hi.
      rewrite Forall_forall in Hok.
      pose proof (trial_mask_length _ _ _ (Hok t Hi)) as Hlen.
      unfold Vxy_getitem. cbn [kept_of active_mask].
      rewrite Hlen, Nat.eqb_refl, from_data_ok. discriminate.
    + intros [= <-]. right. right. repeat split; lia.
  - exfalso. revert Er. now apply ransac_in_range.
Qed.

End FitExceptions.

(** ** Scaling, in exact arithmetic *)

Section ExactScaling.
Local Open Scope R_scope.


End ExactScaling.

(** ** The rotations on a small heap, and the other examples *)

Lemma rotate_in_place_rebinds_witness :
  objects example_heap !! 0%nat = Some 0%nat
  /\ arrays example_heap !! 0%nat = Some [(1, 0); (3, 4)]%float
  /\ rotate_in_place 0 not_a_rotation example_heap
     = Some (Failed RotationNotShape22, example_heap)
  /\ exists h', rotate_in_place 0 quarter_turn example_heap
                = Some (Done tt, h')
       /\ data_of 0 h' = Some [(0, 1); (-4, 3)]%float
       /\ arrays h' !! 0%nat = Some [(1, 0); (3, 4)]%float.
Proof.
  assert (H0 : objects example_heap !! 0%nat = Some 0%nat) by reflexivity.
  assert (H1 : arrays example_heap !! 0%nat = Some [(1, 0); (3, 4)]%float)
    by reflexivity.
  split; [exact H0|]. split; [exact H1|].
  destruct (rotate_in_place_rebinds 0 0 _ quarter_turn example_heap H0 H1)
    as [_ Hq].
  destruct (rotate_in_place_rebinds 0 0 _ not_a_rotation example_heap H0 H1)
    as [Hn _].
  split; [apply Hn; discriminate|].
  destruct (Hq _ _ _ _ eq_refl) as (h' & Hr & Hd & Ha & _).
  exists h'. split; [exact Hr|]. split; [exact Hd|exact Ha].
Defined.

Lemma rotate_copies_leave_heap_witness :
  exists r h',
    rotate 0 not_a_rotation example_heap = Some (r, h')
    /\ data_of 0 h' = Some [(1, 0); (3, 4)]%float
    /\ data_of 1 h' = Some [(1, 1)]%float.
Proof.
  assert (E : exists r h', rotate 0 not_a_rotation example_heap
                           = Some (r, h'))
    by (vm_compute; eexists _, _; reflexivity).
  destruct E as (r & h' & E). exists r, h'. split; [exact E|].
  destruct (rotate_copies_leave_heap 0 0 not_a_rotation example_heap h' r
              (or_introl E)) as (_ & _ & Hd).
  split; apply Hd; reflexivity.
Defined.

Lemma rotate_about_in_place_not_atomic_witness :
  objects example_heap !! 0%nat = Some 0%nat
  /\ arrays example_heap !! 0%nat = Some [(1, 0); (3, 4)]%float
  /\ data_of 1 example_heap = Some [(1, 1)]%float
  /\ in_place s_sub [(1, 0); (3, 4)]%float [(1, 1)]%float
     = Some [(0, -1); (2, 3)]%float
  /\ nd_shape not_a_rotation <> [2; 2]%nat
  /\ (exists h', rotate_about_in_place 0 not_a_rotation 1 example_heap
                 = Some (Failed RotationNotShape22, h')
                 /\ data_of 0 h' = Some [(0, -1); (2, 3)]%float)
  /\ (exists h', rotate_about 0 not_a_rotation 1 example_heap
                 = Some (Failed RotationNotShape22, h')
                 /\ data_of 0 h' = Some [(1, 0); (3, 4)]%float).
Proof.
  assert (H0 : objects example_heap !! 0%nat = Some 0%nat) by reflexivity.
  assert (H1 : arrays example_heap !! 0%nat = Some [(1, 0); (3, 4)]%float)
    by reflexivity.
  assert (H2 : data_of 1 example_heap = Some [(1, 1)]%float) by reflexivity.
  assert (H3 : in_place s_sub [(1, 0); (3, 4)]%float [(1, 1)]%float
               = Some [(0, -1); (2, 3)]%float) by reflexivity.
  assert (H4 : nd_shape not_a_rotation <> [2; 2]%nat) by discriminate.
  split; [exact H0|]. split; [exact H1|]. split; [exact H2|].
  split; [exact H3|]. split; [exact H4|].
  exact (rotate_about_in_place_not_atomic 0 1 0 not_a_rotation example_heap
           _ _ _ H0 H1 H2 H3 H4).
Defined.



Lemma rotate_about_own_pivot_witness :
  objects example_heap !! 0%nat = Some 0%nat
  /\ arrays example_heap !! 0%nat = Some [(1, 0); (3, 4)]%float
  /\ forallb finite_point [(1, 0); (3, 4)]%float = true
  /\ (exists h' d',
        rotate_about_in_place 0 quarter_turn 0 example_heap
        = Some (Done tt, h')
        /\ data_of 0 h' = Some d' /\ length d' = 2%nat
        /\ Forall (fun p => same_point p (0, 0)%float = true) d')
  /\ (exists V_out h' d',
        rotate_about 0 quarter_turn 0 example_heap = Some (Done V_out, h')
        /\ data_of V_out h' = Some d'
        /\ Forall2 (fun p q => same_point p q = true) d'
                   [(1, 0); (3, 4)]%float).
Proof.
  assert (H0 : objects example_heap !! 0%nat = Some 0%nat) by reflexivity.
  assert (H1 : arrays example_heap !! 0%nat = Some [(1, 0); (3, 4)]%float)
    by reflexivity.
  assert (H2 : forallb finite_point [(1, 0); (3, 4)]%float = true)
    by reflexivity.
  split; [exact H0|]. split; [exact H1|]. split; [exact H2|].
  exact (rotate_about_own_pivot 0 0 _ 0 (-1) 1 0 example_heap H0 H1 H2
           eq_refl).
Defined.

(** The line x = 2. *)
Lemma y_from_x_vertical_witness :
  ((B (LineXY_init 1 0 (-2)) =? 0) = true
   /\ length (y_from_x (LineXY_init 1 0 (-2)) [0; 2; 5]) = 3%nat
   /\ Forall (fun y => y = infinity \/ y = neg_infinity \/ y = nan)
             (y_from_x (LineXY_init 1 0 (-2)) [0; 2; 5]))%float.
Proof.
  assert (H : ((B (LineXY_init 1 0 (-2)) =? 0) = true)%float) by reflexivity.
  split; [exact H|].
  exact (y_from_x_vertical (LineXY_init 1 0 (-2))%float [0; 2; 5]%float H).
Defined.

Example y_from_x_on_vertical_line :
  (y_from_x (LineXY_init 1 0 (-2)) [0; 2; 5]
   = [infinity; nan; neg_infinity])%float.
Proof. reflexivity. Qed.

(** Sixteen points on the diagonal with a threshold of 0. *)
Lemma fit_exceptions_witness :
  in_range nat counter_rand (len diagonal16)
  /\ fit_example 0 diagonal16 1 0 = Raise UnboundLocalError
  /\ (0 <= 1)%Z /\ (16 <= len diagonal16)%nat.
Proof.
  assert (H1 : in_range nat counter_rand (len diagonal16))
    by exact counter_in_range.
  assert (H2 : fit_example 0 diagonal16 1 0 = Raise UnboundLocalError)
    by (vm_compute; reflexivity).
  split; [exact H1|]. split; [exact H2|].
  destruct (fit_exceptions nat counter_seed counter_rand no_minimize
              sin_series cos_series arctan2_ratio 0 diagonal16 1 0 _ H1 H2)
    as [[E _]|[[E _]|[_ H]]]; [discriminate E|discriminate E|exact H].
Defined.
